(** * yugabyte_db_thirdparty.env_helpers: a shallow embedding

    The module [python/yugabyte_db_thirdparty/env_helpers.py] manipulates the
    process environment ([os.environ]).  Its functions are embedded here as
    computations over an explicit interpreter state:

    - [os_environ]: the process environment, a finite map from names to
      string values (absence from the map is "the variable is not set");
    - [heap]: the [dict] objects the program holds references to, by
      address, so that two references to one object are visibly aliased;
    - [files]: the files written so far, by path.

    A computation returns an outcome ([Return] or [Raise]) and the state it
    left behind; a raised exception keeps the mutations made before it, as in
    Python.

    Strings are the byte strings the operating system holds: Python sees
    them decoded as UTF-8 (bytes that are not UTF-8 escaped one by one), so
    a character of a [str] is one byte or a few bytes here, and the order
    of two texts is the order of their bytes.  The environment is that of a
    POSIX process: names are case-sensitive, and an assignment to
    [os.environ] is refused with [ValueError] for an empty name, a name
    with [=] in it, and a name or a value with a NUL byte. *)

From Stdlib Require Import Ascii String.
From stdpp Require Import gmap strings list sorting.

Local Open Scope string_scope.

(** * Python's [dict]

    A [dict] keeps its keys unique and iterates in insertion order; it is an
    association list whose operations maintain [wf].  The values of the
    dicts of this module are [Optional[str]]: [None] is Python's [None]. *)
Module dict.
Section dict.
Context {V : Type}.

Definition t : Type := list (string * V).

Definition wf (d : t) : Prop := NoDup d.*1.

Definition keys (d : t) : list string := d.*1.

(** [d.items()] *)
Definition items (d : t) : list (string * V) := d.

(** [d.get(k)] *)
Fixpoint get (d : t) (k : string) : option V :=
  match d with
  | [] => None
  | (k', v) :: d' => if decide (k' = k) then Some v else get d' k
  end.

(** [k in d] *)
Definition contains (d : t) (k : string) : bool :=
  bool_decide (k ∈ keys d).

(** [d[k] = v]: an existing key keeps its place, a new one goes last. *)
Fixpoint setitem (d : t) (k : string) (v : V) : t :=
  match d with
  | [] => [(k, v)]
  | (k', v') :: d' =>
      if decide (k' = k) then (k', v) :: d' else (k', v') :: setitem d' k v
  end.

(** [del d[k]], for a key that is present. *)
Fixpoint delitem (d : t) (k : string) : t :=
  match d with
  | [] => []
  | (k', v') :: d' =>
      if decide (k' = k) then d' else (k', v') :: delitem d' k
  end.

(** [d.update(other)]: [d[k] = v] for each item of [other], in order. *)
Definition update (d other : t) : t :=
  foldl (λ acc kv, setitem acc kv.1 kv.2) d (items other).
End dict.
Global Arguments t : clear implicits.
End dict.

(** The overrides and the saved values: names to [Optional[str]]. *)
Abbreviation pydict := (dict.t (option string)).

(** * Outcomes *)

Inductive exn :=
  | AttributeError
  | InvalidReference
  | ValueError
  | OSError
  | UnicodeEncodeError.

Inductive outcome (A : Type) :=
  | Return (a : A)
  | Raise (e : exn).
Global Arguments Return {A} a.
Global Arguments Raise {A} e.

(** * What [os.environ] accepts

    [os.environ[k] = v] passes [k] and [v] to [putenv], which raises
    [ValueError] for an empty name, for [=] in the name and for a NUL byte
    in the name or in the value. *)
Fixpoint has_char (c : ascii) (s : string) : bool :=
  match s with
  | "" => false
  | String a s' => bool_decide (a = c) || has_char c s'
  end.

Definition legal_name (k : string) : bool :=
  negb (bool_decide (k = "")) && negb (has_char "="%char k)
  && negb (has_char "000"%char k).

Definition legal_value (v : string) : bool := negb (has_char "000"%char v).

Definition store_accepts (k v : string) : bool := legal_name k && legal_value v.

(** * The mapping interface used by [dict_set_or_del]

    [dict_set_or_del(d: Any, k: Any, v: Any)] is duck-typed: it needs
    [k in d], [del d[k]] and [d[k] = v].  Both [os.environ] and [dict]
    provide them.  The assignment of a [dict] always gives the dict with the
    item; that of [os.environ] gives an outcome, the environment with the
    variable or [ValueError]: [mm_result] is what a mutation gives, and
    [mm_return] the result of one that went through. *)
Class MutableMapping (D K V : Type) := {
  mm_result : Type;
  mm_return : D → mm_result;
  mm_contains : D → K → bool;
  mm_delitem : D → K → D;
  mm_setitem : D → K → V → mm_result;
}.

Global Instance environ_mapping : MutableMapping (gmap string string) string string := {|
  mm_result := outcome (gmap string string);
  mm_return d := Return d;
  mm_contains d k := bool_decide (is_Some (d !! k));
  mm_delitem d k := delete k d;
  mm_setitem d k v :=
    if store_accepts k v then Return (<[k := v]> d) else Raise ValueError;
|}.

Global Instance dict_mapping {V} : MutableMapping (dict.t V) string V := {|
  mm_result := dict.t V;
  mm_return d := d;
  mm_contains := dict.contains;
  mm_delitem := dict.delitem;
  mm_setitem := dict.setitem;
|}.

(** [dict_set_or_del]: the mutated mapping is the result. *)
Definition dict_set_or_del `{MutableMapping D K V} (d : D) (k : K) (v : option V) :
    mm_result :=
  match v with
  | None => if mm_contains d k then mm_return (mm_delitem d k) else mm_return d
  | Some v => mm_setitem d k v
  end.

(** * Interpreter state and computations *)
Abbreviation loc := nat (only parsing).

Record state := State {
  heap : gmap loc pydict;
  os_environ : gmap string string;
  files : gmap string string;
}.

Definition set_heap (f : gmap loc pydict → gmap loc pydict) (st : state) : state :=
  {| heap := f (heap st); os_environ := os_environ st; files := files st |}.

Definition set_environ (f : gmap string string → gmap string string) (st : state) : state :=
  {| heap := heap st; os_environ := f (os_environ st); files := files st |}.

Definition set_files (f : gmap string string → gmap string string) (st : state) : state :=
  {| heap := heap st; os_environ := os_environ st; files := f (files st) |}.

Definition M (A : Type) : Type := state → outcome A * state.

Global Instance M_ret : MRet M := λ A a st, (Return a, st).

Global Instance M_bind : MBind M := λ A B f m st,
  match m st with
  | (Return a, st') => f a st'
  | (Raise e, st') => (Raise e, st')
  end.

Definition raise {A} (e : exn) : M A := λ st, (Raise e, st).

(** [for x in xs: body(x)] *)
Fixpoint for_each {A} (xs : list A) (body : A → M unit) : M unit :=
  match xs with
  | [] => mret ()
  | x :: xs' => body x;; for_each xs' body
  end.

(** ** Objects *)

(** A new dict object, at an address not in use. *)
Definition new_dict (d : pydict) : M loc := λ st,
  let l := fresh (dom (heap st)) in
  (Return l, set_heap <[l := d]> st).

Definition read_dict (l : loc) : M pydict := λ st,
  match heap st !! l with
  | Some d => (Return d, st)
  | None => (Raise InvalidReference, st)
  end.

Definition write_dict (l : loc) (d : pydict) : M unit := λ st,
  (Return (), set_heap <[l := d]> st).

Definition modify_dict (l : loc) (f : pydict → pydict) : M unit :=
  d ← read_dict l; write_dict l (f d).

(** [copy.deepcopy(m)] of a mapping from [str] to [Optional[str]]: a new
    object with the same items.  The keys and the values are immutable, so
    there is nothing below the items to copy. *)
Definition copy_deepcopy (m : loc) : M loc :=
  d ← read_dict m; new_dict d.

(** [dict(m)] *)
Definition dict_new (m : loc) : M loc :=
  d ← read_dict m; new_dict (dict.update [] d).

(** [d.update(other)], [d.items()], [d[k] = v] on the object at [d]. *)
Definition dict_update (d : loc) (other : pydict) : M unit :=
  modify_dict d (λ x, dict.update x other).

Definition dict_items (d : loc) : M (list (string * option string)) :=
  x ← read_dict d; mret (dict.items x).

Definition dict_setitem (d : loc) (k : string) (v : option string) : M unit :=
  modify_dict d (λ x, dict.setitem x k v).

(** ** The process environment *)

(** [os.environ.get(name)] *)
Definition os_environ_get (name : string) : M (option string) := λ st,
  (Return (os_environ st !! name), st).


(** A call [f(os.environ, ...)] of a function that mutates its argument or
    raises: on an exception the environment is as it was. *)
Definition call_on_os_environ
    (f : gmap string string → outcome (gmap string string)) : M unit := λ st,
  match f (os_environ st) with
  | Return e => (Return (), set_environ (λ _, e) st)
  | Raise x => (Raise x, st)
  end.

(** * Strings *)

(** [sep.join(l)] *)
Fixpoint str_join (sep : string) (l : list string) : string :=
  match l with
  | [] => ""
  | [x] => x
  | x :: l' => x +:+ sep +:+ str_join sep l'
  end.

(** ** Whitespace

    [str.strip] and [str.split] take for whitespace the characters U+0009
    to U+000D, U+001C to U+0020, U+0085, U+00A0, U+1680, U+2000 to U+200A,
    U+2028, U+2029, U+202F, U+205F and U+3000.  The first ten are one byte;
    the others are the two or three bytes of their UTF-8 encoding, and
    these bytes, where they are found, are always that character: the first
    byte of an encoding is never a later byte of another. *)
Definition space1 (a : ascii) : bool :=
  let n := nat_of_ascii a in
  bool_decide (9 ≤ n ≤ 13 ∨ 28 ≤ n ≤ 32)%nat.

(** U+0085 is [C2 85], U+00A0 is [C2 A0]. *)
Definition space2 (a b : ascii) : bool :=
  let x := nat_of_ascii a in
  let y := nat_of_ascii b in
  bool_decide (x = 194 ∧ (y = 133 ∨ y = 160))%nat.

(** U+1680 is [E1 9A 80]; U+2000 to U+200A are [E2 80 80] to [E2 80 8A];
    U+2028, U+2029 and U+202F are [E2 80 A8], [E2 80 A9] and [E2 80 AF];
    U+205F is [E2 81 9F]; U+3000 is [E3 80 80]. *)
Definition space3 (a b c : ascii) : bool :=
  let x := nat_of_ascii a in
  let y := nat_of_ascii b in
  let z := nat_of_ascii c in
  bool_decide ((x = 225 ∧ y = 154 ∧ z = 128)
               ∨ (x = 226 ∧ y = 128 ∧ (128 ≤ z ≤ 138 ∨ z = 168 ∨ z = 169 ∨ z = 175))
               ∨ (x = 226 ∧ y = 129 ∧ z = 159)
               ∨ (x = 227 ∧ y = 128 ∧ z = 128))%nat.

(** [s.lstrip()] *)
Fixpoint lstrip (s : string) : string :=
  match s with
  | "" => ""
  | String a s1 =>
      if space1 a then lstrip s1 else
      match s1 with
      | "" => s
      | String b s2 =>
          if space2 a b then lstrip s2 else
          match s2 with
          | "" => s
          | String c s3 => if space3 a b c then lstrip s3 else s
          end
      end
  end.

(** [s.isspace()] or [s] is empty: whitespace characters only. *)
Fixpoint all_space (s : string) : bool :=
  match s with
  | "" => true
  | String a s1 =>
      if space1 a then all_space s1 else
      match s1 with
      | "" => false
      | String b s2 =>
          if space2 a b then all_space s2 else
          match s2 with
          | "" => false
          | String c s3 => space3 a b c && all_space s3
          end
      end
  end.

(** [s.rstrip()]: what is left of [s] when its end, as far as it is
    whitespace only, is cut off. *)
Fixpoint rstrip (s : string) : string :=
  match s with
  | "" => ""
  | String a s1 => if all_space s then "" else String a (rstrip s1)
  end.

(** [s.strip()] *)
Definition strip (s : string) : string := rstrip (lstrip s).

(** [s.split()]: the maximal runs of characters that are not whitespace.
    [split_aux s] is the run that begins [s] (empty when [s] begins with
    whitespace) and the runs after it. *)
Definition add_word (p : string * list string) : list string :=
  if decide (p.1 = "") then p.2 else p.1 :: p.2.

Definition push_char (a : ascii) (p : string * list string) : string * list string :=
  (String a p.1, p.2).

Fixpoint split_aux (s : string) : string * list string :=
  match s with
  | "" => ("", [])
  | String a s1 =>
      if space1 a then ("", add_word (split_aux s1)) else
      match s1 with
      | "" => push_char a (split_aux s1)
      | String b s2 =>
          if space2 a b then ("", add_word (split_aux s2)) else
          match s2 with
          | "" => push_char a (split_aux s1)
          | String c s3 =>
              if space3 a b c then ("", add_word (split_aux s3))
              else push_char a (split_aux s1)
          end
      end
  end.

Definition split (s : string) : list string := add_word (split_aux s).

Definition newline : string := String "010" "".
Definition squote : string := "'".
Definition dquote : string := String "034" "".

(** [shlex.quote] of the Python standard library: the empty string is
    written as two single quotes, a string of safe characters as it is, and
    any other within single quotes, each single quote of its own closed,
    written within double quotes and reopened. *)
Definition is_safe_char (c : ascii) : bool :=
  let n := nat_of_ascii c in
  bool_decide (48 ≤ n ≤ 57 ∨ 65 ≤ n ≤ 90 ∨ 97 ≤ n ≤ 122)%nat
  || bool_decide (c ∈ list_ascii_of_string "_@%+=:,./-").

Fixpoint find_unsafe (s : string) : bool :=
  match s with
  | "" => false
  | String c s' => negb (is_safe_char c) || find_unsafe s'
  end.

Fixpoint replace_squote (s : string) : string :=
  match s with
  | "" => ""
  | String c s' =>
      if decide (c = "'"%char)
      then squote +:+ dquote +:+ squote +:+ dquote +:+ squote +:+ replace_squote s'
      else String c (replace_squote s')
  end.

Definition shlex_quote (s : string) : string :=
  if decide (s = "") then squote +:+ squote
  else if find_unsafe s then squote +:+ replace_squote s +:+ squote
  else s.

(** Python's order on pairs of strings, as [sorted] uses it on items. *)
Definition item_le (a b : string * string) : Prop :=
  if decide (a.1 = b.1) then String.le a.2 b.2 else String.le a.1 b.1.

Global Instance item_le_dec : RelDecision item_le.
Proof. intros a b. unfold item_le. destruct (decide (a.1 = b.1)); apply _. Defined.
Global Typeclasses Opaque item_le.

(** [sorted(items)] *)
Definition sorted (l : list (string * string)) : list (string * string) :=
  merge_sort item_le l.

(** * env_helpers.py *)

(** Modelled from the spec: [split_into_word_set] is defined in
    [yugabyte_db_thirdparty.string_util], which is not among the sources; the
    spec calls its result here "a fixed allow-list of environment variable
    names", so it is taken to be the set of the whitespace-separated words
    of its argument. *)
Definition split_into_word_set (s : string) : gset string :=
  list_to_set (split s).

Definition ENV_VARS_TO_SAVE : gset string := split_into_word_set "
    ASAN_OPTIONS
    CC
    CFLAGS
    CPPFLAGS
    CXX
    CXXFLAGS
    LANG
    LDFLAGS
    PATH
    PYTHONPATH
    NM
    AR
    LD
    AS
".

(** The set is computed from the literal; proofs take it as it is named. *)
Global Opaque ENV_VARS_TO_SAVE.

Section write_env_vars.
(** [DEVTOOLSET_ENV_VARS] is imported from [yugabyte_db_thirdparty.devtoolset],
    which is not among the sources: any set of names. *)
Variable DEVTOOLSET_ENV_VARS : gset string.

(** The file system and the locale are outside the program: [can_open]
    tells the paths that [open(path, 'w')] can open (the directory is there,
    the file may be written), [encodes] the texts that the encoding of a
    text file can encode. *)
Variable can_open : string → bool.
Variable encodes : string → bool.

(** [open(file_path, 'w')]: the file is made, or emptied, or [OSError]
    (as [FileNotFoundError] or [PermissionError]) is raised. *)
Definition open_for_writing (file_path : string) : M unit := λ st,
  if can_open file_path
  then (Return (), set_files <[file_path := ""]> st)
  else (Raise OSError, st).

(** [output_file.write(text)], and the file is closed: the text is encoded
    as a whole and added to the file, or [UnicodeEncodeError] is raised and
    nothing is added. *)
Definition write_text (file_path text : string) : M unit := λ st,
  if encodes text
  then (Return (),
        set_files (λ fs, <[file_path := default "" (fs !! file_path) +:+ text]> fs) st)
  else (Raise UnicodeEncodeError, st).

(** The condition of the [if] in the loop of [write_env_vars]. *)
Definition is_saved (k : string) : bool :=
  bool_decide (k ∈ ENV_VARS_TO_SAVE)
  || bool_decide (k ∈ DEVTOOLSET_ENV_VARS)
  || String.prefix "YB_" k.

Definition export_line (k v : string) : string :=
  "export " +:+ k +:+ "=" +:+ shlex_quote v +:+ newline.

(** The loop of [write_env_vars] over the sorted items, [env_script]
    being the accumulator. *)
Fixpoint write_env_vars_loop (kvs : list (string * string)) (env_script : string) : string :=
  match kvs with
  | [] => env_script
  | (k, v) :: kvs' =>
      write_env_vars_loop kvs'
        (if is_saved k then env_script +:+ export_line k v else env_script)
  end.

Definition write_env_vars (file_path : string) : M unit := λ st,
  let env_script := "" in
  let env_script :=
    write_env_vars_loop (sorted (map_to_list (os_environ st))) env_script in
  (open_for_writing file_path;; write_text file_path env_script) st.
End write_env_vars.
Global Typeclasses Opaque is_saved.

Module EnvVarContext.
(** An instance: its two attributes are references to dict objects;
    [saved_env_vars] is not bound before the first [__enter__].  The
    instance is passed along: a method that binds an attribute returns the
    instance with the attribute bound. *)
Record t := Build {
  env_vars : loc;
  saved_env_vars : option loc;
}.

(** [__init__(self, env_vars, **kwargs_env_vars)]: [env_vars] is a
    reference to the caller's mapping, [kwargs_env_vars] the dict of the
    keyword arguments, built for this call.  The instance is returned. *)
Definition __init__ (env_vars : loc) (kwargs_env_vars : pydict) : M t :=
  c ← copy_deepcopy env_vars;
  d ← dict_new c;
  dict_update d kwargs_env_vars;;
  mret {| env_vars := d; saved_env_vars := None |}.

(** The body of the loop of [__enter__], [saved] being
    [self.saved_env_vars]. *)
Definition enter_step (saved : loc) (item : string * option string) : M unit :=
  let '(env_var_name, new_value) := item in
  old ← os_environ_get env_var_name;
  dict_setitem saved env_var_name old;;
  call_on_os_environ (λ e, dict_set_or_del e env_var_name new_value).

(** [__enter__(self)]; the instance with [saved_env_vars] rebound is
    returned.  When an assignment in the loop raises, the exception leaves
    [__enter__] and the caller gets no entered instance: a [with] statement
    then runs neither its block nor [__exit__]. *)
Definition __enter__ (self : t) : M t :=
  saved ← new_dict [];
  let self := {| env_vars := env_vars self; saved_env_vars := Some saved |} in
  items ← dict_items (env_vars self);
  for_each items (enter_step saved);;
  mret self.

Definition exit_step (item : string * option string) : M unit :=
  let '(env_var_name, saved_value) := item in
  call_on_os_environ (λ e, dict_set_or_del e env_var_name saved_value).

(** [__exit__(self, exc_type, exc_val, exc_tb)] *)
Definition __exit__ (self : t) : M unit :=
  match saved_env_vars self with
  | None => raise AttributeError
  | Some saved =>
      items ← dict_items saved;
      for_each items exit_step
  end.
End EnvVarContext.

(** [join_dir_list]: the first statement binds [d] to the stripped names;
    the comprehension of the second ranges over [dirs] and binds its own
    [d]. *)
Definition join_dir_list (dirs : list string) : string :=
  let d := strip <$> dirs in
  str_join ":" (filter (λ d, d ≠ "") dirs).

(** ** The other helpers of the module *)

(** [os.getenv(name)] is [os.environ.get(name)]. *)
Definition os_getenv (name : string) : M (option string) := os_environ_get name.

(** An [Optional[str]] inside an f-string: the string itself, or [None]
    spelled out. *)
Definition format_optional (v : option string) : string := default "None" v.

Definition get_env_var_name_and_value_str (env_var_name : string) : M string :=
  v ← os_getenv env_var_name;
  mret (env_var_name +:+ "=" +:+ format_optional v).

(** [s.split(sep)] for a separator of one character: the pieces between
    the occurrences of [sep]; never the empty list. *)
Fixpoint str_split (sep : ascii) (s : string) : list string :=
  match s with
  | "" => [""]
  | String c s' =>
      if decide (c = sep) then "" :: str_split sep s'
      else match str_split sep s' with
           | w :: ws => String c w :: ws
           | [] => [String c ""]
           end
  end.

Definition get_dir_list_from_env_var (env_var_name : string) : M (list string) :=
  env_var_value ← os_getenv env_var_name;
  match env_var_value with
  | None => mret []
  | Some env_var_value => mret (str_split ":" env_var_value)
  end.

Definition get_flag_list_from_env_var (env_var_name : string) : M (list string) :=
  env_var_value ← os_getenv env_var_name;
  match env_var_value with
  | None => mret []
  | Some env_var_value => mret (split (strip env_var_value))
  end.


Section logging.
(** [log] is imported from [yugabyte_db_thirdparty.custom_logging], which is
    not among the sources: any computation of a format string and its
    arguments. *)
Variable log : string → list string → M unit.

End logging.

(** * Definitions used in the statements *)

(** An override set, or a dict of saved values, that the store takes: each
    item with a string value is an assignment the store accepts.  (An item
    with [None] assigns nothing.) *)
Definition item_ok (kv : string * option string) : bool :=
  match kv.2 with
  | Some v => store_accepts kv.1 v
  | None => true
  end.

Definition overrides_ok (O : pydict) : Prop := Forall (λ kv, item_ok kv) O.

(** An environment as a process has it: every variable in it is one the
    store accepts. *)
Definition environ_ok (e : gmap string string) : Prop :=
  map_Forall (λ k v, store_accepts k v) e.

(** The environment with [k] set to [v], or without [k] for [None]. *)
Definition put_or_del (e : gmap string string) (k : string) (v : option string) :
    gmap string string :=
  match v with
  | Some x => <[k := x]> e
  | None => delete k e
  end.

(** The environment after [dict_set_or_del(os.environ, k, v)] for each
    item, in order, when every assignment is accepted. *)
Definition apply_items (items : list (string * option string))
    (e : gmap string string) : gmap string string :=
  foldl (λ e kv, put_or_del e kv.1 kv.2) e items.

(** The saved values after the loop of [__enter__] over [items], started
    with the saved values [s] and the environment [e], when every
    assignment is accepted. *)
Fixpoint saved_items (items : list (string * option string)) (s : pydict)
    (e : gmap string string) : pydict :=
  match items with
  | [] => s
  | (k, v) :: items' =>
      saved_items items' (dict.setitem s k (e !! k)) (put_or_del e k v)
  end.

(** The loop of [__exit__] on the environment alone: how it ends and the
    environment it leaves. *)
Fixpoint run_exit (items : list (string * option string))
    (e : gmap string string) : outcome unit * gmap string string :=
  match items with
  | [] => (Return (), e)
  | (k, v) :: items' =>
      match dict_set_or_del e k v with
      | Return e' => run_exit items' e'
      | Raise x => (Raise x, e)
      end
  end.

(** The loop of [__enter__] on the saved values and the environment alone. *)
Fixpoint run_enter (items : list (string * option string)) (s : pydict)
    (e : gmap string string) : outcome unit * pydict * gmap string string :=
  match items with
  | [] => (Return (), s, e)
  | (k, v) :: items' =>
      match dict_set_or_del e k v with
      | Return e' => run_enter items' (dict.setitem s k (e !! k)) e'
      | Raise x => (Raise x, dict.setitem s k (e !! k), e)
      end
  end.

(** The scoped block, seen from [__exit__]: it runs from the state [st1]
    that [__enter__] left to some state [st2]; it does not rebind
    [saved_env_vars] and leaves the dict of the saved values as it was. *)
Definition block_keeps (self : EnvVarContext.t) (st1 st2 : state) : Prop :=
  ∀ saved, EnvVarContext.saved_env_vars self = Some saved →
    heap st2 !! saved = heap st1 !! saved.

Import EnvVarContext.

(** Sample inputs: an environment with [B], [CC] and [YB_Z] set, the
    mappings [{'A': '1', 'B': None}] at address 0 and [{'A': '2'}] at
    address 1, and two instances over them. *)
Definition sample_state : state := {|
  heap := {[ 0%nat := [("A", Some "1"); ("B", None)]; 1%nat := [("A", Some "2")] ]};
  os_environ := {[ "B" := "x"; "CC" := "gcc"; "YB_Z" := "it's" ]};
  files := ∅;
|}.

Definition sample_ctx : EnvVarContext.t :=
  {| env_vars := 0%nat; saved_env_vars := None |}.

Definition sample_inner : EnvVarContext.t :=
  {| env_vars := 1%nat; saved_env_vars := None |}.

(** A block that sets [CC], removes [YB_Z] and defines [NEW]. *)
Definition sample_block (st : state) : state :=
  set_environ (λ e, <["NEW" := "n"]> (delete "YB_Z" (<["CC" := "clang"]> e))) st.

(** An override set whose second name the store refuses:
    [{'OK': '1', 'A=B': 'v'}], and an empty environment. *)
Definition refused_state : state := {|
  heap := {[ 0%nat := [("OK", Some "1"); ("A=B", Some "v")] ]};
  os_environ := ∅;
  files := ∅;
|}.

(** The export statements of the items of [L], in order. *)
Definition script_of (L : list (string * string)) : string :=
  foldr (λ kv rest, export_line kv.1 kv.2 +:+ rest) "" L.

(** The script of the claim as the spec words it: the variables named in
    the allow-list [ENV_VARS_TO_SAVE] and no other, sorted. *)
Definition allow_list_script (e : gmap string string) : string :=
  script_of (filter (λ kv, kv.1 ∈ ENV_VARS_TO_SAVE) (sorted (map_to_list e))).

(** What writing [script] to [file_path] comes to: the file with the
    script; an empty file and [UnicodeEncodeError] when the script cannot
    be encoded; [OSError] and no change when the file cannot be opened. *)
Definition written (can_open encodes : string → bool) (file_path script : string)
    (st : state) : outcome unit * state :=
  if can_open file_path then
    if encodes script
    then (Return (), set_files <[file_path := script]> st)
    else (Raise UnicodeEncodeError, set_files <[file_path := ""]> st)
  else (Raise OSError, st).

(** An environment with one variable, [YB_X], which is not in the
    allow-list. *)
Definition yb_state : state :=
  {| heap := ∅; os_environ := {[ "YB_X" := "1" ]}; files := ∅ |}.

(** A file system and an encoding that take everything. *)
Definition always (s : string) : bool := true.

(** The claim's words: the colon-join of the non-empty elements of the
    list as given. *)
Definition colon_join_nonempty (dirs : list string) : string :=
  String.concat ":" (filter (λ s, s ≠ "") dirs).

(** No colon in the string. *)
Fixpoint colon_free (s : string) : bool :=
  match s with
  | "" => true
  | String c s' => negb (bool_decide (c = ":"%char)) && colon_free s'
  end.

(** [s] begins with a whitespace character. *)
Definition space_here (s : string) : bool :=
  match s with
  | "" => false
  | String a s1 =>
      space1 a ||
      match s1 with
      | "" => false
      | String b s2 =>
          space2 a b ||
          match s2 with
          | "" => false
          | String c s3 => space3 a b c
          end
      end
  end.

(** What follows the whitespace character that [s] begins with. *)
Definition after_space (s : string) : string :=
  match s with
  | "" => ""
  | String a s1 =>
      if space1 a then s1 else
      match s1 with
      | "" => ""
      | String b s2 =>
          if space2 a b then s2 else
          match s2 with
          | "" => ""
          | String c s3 => s3
          end
      end
  end.

(** No whitespace character in the string. *)
Fixpoint space_free (s : string) : bool :=
  match s with
  | "" => true
  | String a s1 => negb (space_here s) && space_free s1
  end.

(** A byte that is not the first of a character in UTF-8: [80] to [BF].
    Every byte of a whitespace character after its first is one, and the
    first is none. *)
Definition continuation (a : ascii) : bool :=
  bool_decide (128 ≤ nat_of_ascii a ≤ 191)%nat.

(** [r] does not begin in the middle of a character. *)
Definition starts_clean (r : string) : bool :=
  match r with
  | "" => true
  | String a _ => negb (continuation a)
  end.

(** A word of a flag list: not empty, no whitespace. *)
Definition is_word (s : string) : Prop := s ≠ "" ∧ space_free s.

(** The state of the third example of the docstring of [__init__]: the
    variable is set, and address 0 holds the default mapping, [{}]. *)
Definition docstring_state : state := {|
  heap := {[ 0%nat := [] ]};
  os_environ := {[ "SHOULD_NOT_SET_THIS_VAR" := "undesirable_value" ]};
  files := ∅;
|}.


(** * Facts about [dict] *)
Section dict_facts.
Context {V : Type}.
Implicit Types (d o : dict.t V) (k : string) (v : V).

Lemma get_setitem d k v k' :
  dict.get (dict.setitem d k v) k' = if decide (k = k') then Some v else dict.get d k'.
Proof.
  induction d as [|[k0 v0] d IH]; simpl.
  - by destruct (decide (k = k')).
  - destruct (decide (k0 = k)) as [->|Hne]; simpl.
    + by destruct (decide (k = k')).
    + destruct (decide (k0 = k')) as [->|]; [|done].
      by rewrite decide_False.
Qed.

Lemma elem_of_keys_setitem d k v k' :
  k' ∈ dict.keys (dict.setitem d k v) ↔ k' = k ∨ k' ∈ dict.keys d.
Proof.
  unfold dict.keys. induction d as [|[k0 v0] d IH]; simpl.
  - rewrite list_elem_of_singleton. split; [by left|].
    by intros [?|?%elem_of_nil].
  - destruct (decide (k0 = k)) as [->|Hne]; simpl; rewrite !elem_of_cons.
    + split; [by right|]. intros [->|?]; [by left|done].
    + rewrite IH. tauto.
Qed.

Lemma wf_setitem d k v : dict.wf d → dict.wf (dict.setitem d k v).
Proof.
  unfold dict.wf. induction d as [|[k0 v0] d IH]; simpl.
  - intros _. apply NoDup_singleton.
  - rewrite NoDup_cons. intros [Hk0 Hd].
    destruct (decide (k0 = k)) as [->|Hne]; simpl.
    + by apply NoDup_cons.
    + apply NoDup_cons. split; [|by apply IH].
      intros [->|Hin]%elem_of_keys_setitem; done.
Qed.

Lemma get_None d k : dict.get d k = None ↔ k ∉ dict.keys d.
Proof.
  unfold dict.keys. induction d as [|[k0 v0] d IH]; simpl.
  - split; [|done]. intros _. apply not_elem_of_nil.
  - rewrite not_elem_of_cons.
    destruct (decide (k0 = k)) as [->|Hne]; [by split; [|intros [? _]]|].
    rewrite IH. split; [done|by intros [_ ?]].
Qed.

Lemma get_Some d k v : dict.wf d → dict.get d k = Some v ↔ (k, v) ∈ d.
Proof.
  unfold dict.wf. induction d as [|[k0 v0] d IH]; simpl.
  - intros _. split; [done|]. by intros ?%elem_of_nil.
  - rewrite NoDup_cons. intros [Hk0 Hd].
    rewrite elem_of_cons. destruct (decide (k0 = k)) as [->|Hne].
    + split; [intros [= ->]; by left|].
      intros [[= ->]|Hin]; [done|].
      destruct Hk0. apply list_elem_of_fmap. by exists (k, v).
    + rewrite IH by done. split; [by right|]. by intros [[= -> ->]|?].
Qed.

Lemma wf_update d o : dict.wf d → dict.wf (dict.update d o).
Proof.
  unfold dict.update, dict.items. revert d.
  induction o as [|[k0 v0] o IH]; intros d Hd; simpl; [done|].
  by apply IH, wf_setitem.
Qed.

Lemma get_update_notin d o k :
  k ∉ dict.keys o → dict.get (dict.update d o) k = dict.get d k.
Proof.
  unfold dict.update, dict.items, dict.keys. revert d.
  induction o as [|[k0 v0] o IH]; intros d Hk; simpl in *; [done|].
  apply not_elem_of_cons in Hk as [Hne Hk].
  rewrite IH by done. rewrite get_setitem. by rewrite decide_False.
Qed.

Lemma get_update_in d o k v :
  dict.wf o → (k, v) ∈ o → dict.get (dict.update d o) k = Some v.
Proof.
  unfold dict.wf. revert d.
  induction o as [|[k0 v0] o IH]; intros d Hwf Hin; [by apply elem_of_nil in Hin|].
  simpl in Hwf. apply NoDup_cons in Hwf as [Hk0 Hwf].
  apply elem_of_cons in Hin as [[= <- <-]|Hin].
  - change (dict.update d ((k, v) :: o)) with (dict.update (dict.setitem d k v) o).
    rewrite get_update_notin by done.
    rewrite get_setitem. by rewrite decide_True.
  - change (dict.update d ((k0, v0) :: o)) with (dict.update (dict.setitem d k0 v0) o).
    by apply IH.
Qed.
End dict_facts.

Lemma get_delitem {V} (d : dict.t V) k k' :
  dict.wf d →
  dict.get (dict.delitem d k) k' = if decide (k = k') then None else dict.get d k'.
Proof.
  unfold dict.wf. induction d as [|[k0 v0] d IH]; simpl; intros Hwf.
  - by destruct (decide (k = k')).
  - apply NoDup_cons in Hwf as [Hk0 Hwf].
    destruct (decide (k0 = k)) as [Heq|Hne].
    + subst k0. destruct (decide (k = k')) as [Hkk|]; [|done].
      subst k'. by apply get_None.
    + simpl. rewrite IH by done.
      destruct (decide (k0 = k')) as [Heq|]; [|done].
      subst k'. by rewrite decide_False by (by intros ?).
Qed.

Lemma elem_of_keys_delitem {V} (d : dict.t V) k k' :
  k' ∈ dict.keys (dict.delitem d k) → k' ∈ dict.keys d.
Proof.
  unfold dict.keys. induction d as [|[k0 v0] d IH]; simpl; [done|].
  destruct (decide (k0 = k)) as [Heq|Hne]; simpl; rewrite ?elem_of_cons; auto.
  intros [?|?]; auto.
Qed.

Lemma wf_delitem {V} (d : dict.t V) k : dict.wf d → dict.wf (dict.delitem d k).
Proof.
  unfold dict.wf. induction d as [|[k0 v0] d IH]; simpl; [done|].
  rewrite NoDup_cons. intros [Hk0 Hwf].
  destruct (decide (k0 = k)) as [Heq|Hne]; [done|]. simpl.
  apply NoDup_cons. split; [|by apply IH].
  intros Hin. by apply Hk0, (elem_of_keys_delitem d k).
Qed.



Lemma get_update {V} (d o : dict.t V) k :
  dict.wf o →
  dict.get (dict.update d o) k
  = match dict.get o k with Some v => Some v | None => dict.get d k end.
Proof.
  intros Hwf. destruct (dict.get o k) as [v|] eqn:Hget.
  - apply get_update_in; [done|]. by apply get_Some.
  - apply get_update_notin. by apply get_None.
Qed.

(** * [dict_set_or_del] on [os.environ] *)

Lemma dsod_Some_ok (e : gmap string string) k x :
  store_accepts k x → dict_set_or_del e k (Some x) = Return (<[k := x]> e).
Proof. intros Hok. simpl. by rewrite (Is_true_true_1 _ Hok). Qed.

Lemma dsod_Some_refused (e : gmap string string) k x :
  ¬ store_accepts k x → dict_set_or_del e k (Some x) = Raise ValueError.
Proof. intros Hno. simpl. by rewrite (Is_true_false_1 _ Hno). Qed.

Lemma dsod_None (e : gmap string string) k :
  dict_set_or_del e k None = Return (delete k e).
Proof.
  simpl. case_bool_decide as Hin; [done|]. f_equal. symmetry.
  apply delete_id. destruct (e !! k) eqn:He; [|done]. destruct Hin. by eexists.
Qed.

Lemma dsod_ok (e : gmap string string) k v :
  item_ok (k, v) → dict_set_or_del e k v = Return (put_or_del e k v).
Proof.
  destruct v as [x|]; intros Hok; [by apply dsod_Some_ok|apply dsod_None].
Qed.

Lemma dsod_cases (e : gmap string string) k v :
  dict_set_or_del e k v = Return (put_or_del e k v)
  ∨ dict_set_or_del e k v = Raise ValueError.
Proof.
  destruct v as [x|]; [|left; apply dsod_None].
  destruct (store_accepts k x) eqn:Hok.
  - left. apply dsod_Some_ok. by rewrite Hok.
  - right. apply dsod_Some_refused. rewrite Hok. by intros [].
Qed.

Lemma put_or_del_lookup (e : gmap string string) k (v : option string) k' :
  put_or_del e k v !! k' = if decide (k = k') then v else e !! k'.
Proof. destruct v; simpl; [apply lookup_insert|apply lookup_delete]. Qed.

Lemma environ_ok_put_or_del e k v :
  environ_ok e → item_ok (k, v) → environ_ok (put_or_del e k v).
Proof.
  intros He Hok k' x. rewrite put_or_del_lookup.
  destruct (decide (k = k')) as [<-|]; [|by apply He].
  intros ->. exact Hok.
Qed.

(** * The effect of the two loops of [EnvVarContext] *)

Lemma apply_items_notin items e k :
  k ∉ dict.keys items → apply_items items e !! k = e !! k.
Proof.
  unfold dict.keys. revert e.
  induction items as [|[k0 v0] items IH]; intros e Hk; simpl in *; [done|].
  apply not_elem_of_cons in Hk as [Hne Hk].
  rewrite IH by done. rewrite put_or_del_lookup. by rewrite decide_False.
Qed.

Lemma apply_items_in items e k v :
  dict.wf items → (k, v) ∈ items → apply_items items e !! k = v.
Proof.
  unfold dict.wf. revert e.
  induction items as [|[k0 v0] items IH]; intros e Hwf Hin;
    [by apply elem_of_nil in Hin|].
  simpl in Hwf. apply NoDup_cons in Hwf as [Hk0 Hwf].
  apply elem_of_cons in Hin as [[= <- <-]|Hin]; simpl.
  - rewrite apply_items_notin by done.
    rewrite put_or_del_lookup. by rewrite decide_True.
  - by apply IH.
Qed.

Lemma apply_items_get items e k :
  dict.wf items →
  apply_items items e !! k = default (e !! k) (dict.get items k).
Proof.
  intros Hwf. destruct (dict.get items k) as [v|] eqn:Hget; simpl.
  - apply apply_items_in; [done|]. by apply get_Some.
  - apply apply_items_notin. by apply get_None.
Qed.

Lemma apply_items_twice (s : pydict) (e : gmap string string) :
  dict.wf s → apply_items s (apply_items s e) = apply_items s e.
Proof.
  intros Hwf. apply map_eq. intros k. rewrite !apply_items_get by done.
  by destruct (dict.get s k).
Qed.

Lemma environ_ok_apply_items items e :
  environ_ok e → overrides_ok items → environ_ok (apply_items items e).
Proof.
  revert e. induction items as [|[k v] items IH]; intros e He Hok; [done|].
  apply Forall_cons in Hok as [Hkv Hok]. simpl.
  apply IH; [|done]. by apply environ_ok_put_or_del.
Qed.

Lemma wf_saved_items items s e : dict.wf s → dict.wf (saved_items items s e).
Proof.
  revert s e. induction items as [|[k0 v0] items IH]; intros s e Hs; simpl; [done|].
  by apply IH, wf_setitem.
Qed.

Lemma get_saved_items_notin items s e k :
  k ∉ dict.keys items → dict.get (saved_items items s e) k = dict.get s k.
Proof.
  unfold dict.keys. revert s e.
  induction items as [|[k0 v0] items IH]; intros s e Hk; simpl in *; [done|].
  apply not_elem_of_cons in Hk as [Hne Hk].
  rewrite IH by done. rewrite get_setitem. by rewrite decide_False.
Qed.

(** With unique names, what is saved for a name is its value before the
    loop: no earlier iteration has touched it. *)
Lemma get_saved_items_in items s e k :
  dict.wf items → k ∈ dict.keys items →
  dict.get (saved_items items s e) k = Some (e !! k).
Proof.
  unfold dict.wf, dict.keys. revert s e.
  induction items as [|[k0 v0] items IH]; intros s e Hwf Hin;
    [by apply elem_of_nil in Hin|].
  simpl in *. apply NoDup_cons in Hwf as [Hk0 Hwf].
  apply elem_of_cons in Hin as [->|Hin].
  - rewrite get_saved_items_notin by done.
    rewrite get_setitem. by rewrite decide_True.
  - rewrite IH by done. rewrite put_or_del_lookup.
    rewrite decide_False; [done|]. by intros ->.
Qed.


Lemma overrides_ok_setitem (s : pydict) k v :
  overrides_ok s → item_ok (k, v) → overrides_ok (dict.setitem s k v).
Proof.
  unfold overrides_ok. induction s as [|[k0 v0] s IH]; simpl; intros Hs Hkv.
  - by repeat constructor.
  - apply Forall_cons in Hs as [H0 Hs].
    destruct (decide (k0 = k)) as [->|]; constructor; auto.
Qed.

(** What [__enter__] saves comes from the environment: the store accepts
    it again. *)
Lemma overrides_ok_saved_items items s e :
  environ_ok e → overrides_ok items → overrides_ok s →
  overrides_ok (saved_items items s e).
Proof.
  revert s e. induction items as [|[k v] items IH]; intros s e He Hok Hs; [done|].
  apply Forall_cons in Hok as [Hkv Hok]. simpl. apply IH; [|done|].
  - by apply environ_ok_put_or_del.
  - apply overrides_ok_setitem; [done|].
    unfold item_ok. simpl. destruct (e !! k) as [x|] eqn:Hx; [|done].
    by apply (He k x).
Qed.

Lemma restore_all (O : pydict) (e : gmap string string) :
  dict.wf O → apply_items (saved_items O [] e) (apply_items O e) = e.
Proof.
  intros Hwf. apply map_eq. intros k.
  rewrite apply_items_get by (apply wf_saved_items, NoDup_nil_2).
  destruct (decide (k ∈ dict.keys O)) as [Hin|Hnin].
  - by rewrite get_saved_items_in.
  - rewrite get_saved_items_notin by done. simpl. by apply apply_items_notin.
Qed.

(** ** The loops as functions of the environment *)

Lemma run_exit_ok items e :
  overrides_ok items → run_exit items e = (Return (), apply_items items e).
Proof.
  revert e. induction items as [|[k v] items IH]; intros e Hok; [done|].
  apply Forall_cons in Hok as [Hkv Hok]. cbn [run_exit].
  rewrite dsod_ok by done. by rewrite IH.
Qed.

Lemma run_enter_ok items s e :
  overrides_ok items →
  run_enter items s e = (Return (), saved_items items s e, apply_items items e).
Proof.
  revert s e. induction items as [|[k v] items IH]; intros s e Hok; [done|].
  apply Forall_cons in Hok as [Hkv Hok]. cbn [run_enter].
  rewrite dsod_ok by done. by rewrite IH.
Qed.

Lemma run_exit_frame items e k :
  k ∉ dict.keys items → (run_exit items e).2 !! k = e !! k.
Proof.
  unfold dict.keys. revert e.
  induction items as [|[k0 v0] items IH]; intros e Hk; [done|].
  simpl in Hk. apply not_elem_of_cons in Hk as [Hne Hk]. cbn [run_exit].
  destruct (dsod_cases e k0 v0) as [-> | ->]; [|done].
  rewrite IH by done. rewrite put_or_del_lookup. by rewrite decide_False.
Qed.

Lemma run_enter_frame items s e k :
  k ∉ dict.keys items → (run_enter items s e).2 !! k = e !! k.
Proof.
  unfold dict.keys. revert s e.
  induction items as [|[k0 v0] items IH]; intros s e Hk; [done|].
  simpl in Hk. apply not_elem_of_cons in Hk as [Hne Hk]. cbn [run_enter].
  destruct (dsod_cases e k0 v0) as [-> | ->]; [|done].
  rewrite IH by done. rewrite put_or_del_lookup. by rewrite decide_False.
Qed.

Lemma run_enter_keys items s e k :
  k ∈ dict.keys (run_enter items s e).1.2 →
  k ∈ dict.keys s ∨ k ∈ dict.keys items.
Proof.
  revert s e. induction items as [|[k0 v0] items IH]; intros s e; [by left|].
  cbn [run_enter]. unfold dict.keys at 3. simpl. rewrite elem_of_cons.
  destruct (dsod_cases e k0 v0) as [-> | ->].
  - intros [Hs|Hi]%IH; [|by auto].
    apply elem_of_keys_setitem in Hs as [->|Hs]; auto.
  - simpl. intros [->|Hs]%elem_of_keys_setitem; auto.
Qed.

Lemma wf_run_enter items s e : dict.wf s → dict.wf (run_enter items s e).1.2.
Proof.
  revert s e. induction items as [|[k0 v0] items IH]; intros s e Hs; [done|].
  cbn [run_enter]. destruct (dsod_cases e k0 v0) as [-> | ->].
  - by apply IH, wf_setitem.
  - by apply wf_setitem.
Qed.

(** ** Running the computations *)

Lemma bind_run {A B} (m : M A) (f : A → M B) st :
  (m ≫= f) st =
  match m st with
  | (Return a, st') => f a st'
  | (Raise e, st') => (Raise e, st')
  end.
Proof. reflexivity. Qed.

Lemma state_eta st :
  {| heap := heap st; os_environ := os_environ st; files := files st |} = st.
Proof. by destruct st. Qed.

Lemma for_each_exit_step items st :
  for_each items EnvVarContext.exit_step st
  = ((run_exit items (os_environ st)).1,
     set_environ (λ _, (run_exit items (os_environ st)).2) st).
Proof.
  revert st. induction items as [|[k v] items IH]; intros st.
  - simpl. unfold set_environ. simpl. by rewrite state_eta.
  - cbn [for_each run_exit]. rewrite bind_run.
    unfold EnvVarContext.exit_step, call_on_os_environ.
    destruct (dict_set_or_del (os_environ st) k v) as [e'|x].
    + rewrite IH. reflexivity.
    + simpl. unfold set_environ. simpl. by rewrite state_eta.
Qed.

Lemma for_each_enter_step items saved (s : pydict) st :
  heap st !! saved = Some s →
  for_each items (EnvVarContext.enter_step saved) st
  = ((run_enter items s (os_environ st)).1.1,
     {| heap := <[saved := (run_enter items s (os_environ st)).1.2]> (heap st);
        os_environ := (run_enter items s (os_environ st)).2;
        files := files st |}).
Proof.
  revert s st. induction items as [|[k v] items IH]; intros s st Hs.
  - simpl. rewrite insert_id by done. by rewrite state_eta.
  - cbn [for_each run_enter]. rewrite bind_run.
    unfold EnvVarContext.enter_step.
    rewrite bind_run. simpl. unfold dict_setitem, modify_dict.
    rewrite !bind_run. unfold read_dict at 1. rewrite Hs. simpl.
    unfold call_on_os_environ. simpl.
    destruct (dict_set_or_del (os_environ st) k v) as [e'|x].
    + erewrite IH; [|by apply lookup_insert_eq]. simpl.
      by rewrite insert_insert_eq.
    + reflexivity.
Qed.

Lemma fresh_lookup_ne {A} (h : gmap nat A) l x :
  h !! l = Some x → fresh (dom h) ≠ l.
Proof.
  intros Hl Heq. apply (is_fresh (dom h)). rewrite Heq.
  apply elem_of_dom. by eexists.
Qed.

(** [__enter__], whatever its outcome. *)
Lemma enter_run_gen self (O : pydict) st :
  heap st !! EnvVarContext.env_vars self = Some O →
  EnvVarContext.__enter__ self st
  = (match (run_enter O [] (os_environ st)).1.1 with
     | Return _ =>
         Return {| EnvVarContext.env_vars := EnvVarContext.env_vars self;
                   EnvVarContext.saved_env_vars := Some (fresh (dom (heap st))) |}
     | Raise x => Raise x
     end,
     {| heap := <[fresh (dom (heap st)) := (run_enter O [] (os_environ st)).1.2]>
                  (heap st);
        os_environ := (run_enter O [] (os_environ st)).2;
        files := files st |}).
Proof.
  intros HO. unfold EnvVarContext.__enter__.
  rewrite bind_run. simpl. unfold dict_items. rewrite !bind_run.
  unfold read_dict. simpl.
  rewrite lookup_insert_ne by by eapply fresh_lookup_ne.
  rewrite HO. simpl. rewrite bind_run.
  erewrite for_each_enter_step; [|by apply lookup_insert_eq]. simpl.
  rewrite insert_insert_eq. unfold dict.items.
  by destruct (run_enter O [] (os_environ st)).1.1 as [[]|x].
Qed.

Lemma enter_run self (O : pydict) st :
  heap st !! EnvVarContext.env_vars self = Some O →
  overrides_ok O →
  EnvVarContext.__enter__ self st
  = (Return {| EnvVarContext.env_vars := EnvVarContext.env_vars self;
               EnvVarContext.saved_env_vars := Some (fresh (dom (heap st))) |},
     {| heap := <[fresh (dom (heap st)) := saved_items O [] (os_environ st)]> (heap st);
        os_environ := apply_items O (os_environ st);
        files := files st |}).
Proof.
  intros HO Hok. rewrite (enter_run_gen self O st HO).
  by rewrite run_enter_ok.
Qed.

(** [__exit__], whatever its outcome. *)
Lemma exit_run_gen self saved (s : pydict) st :
  EnvVarContext.saved_env_vars self = Some saved →
  heap st !! saved = Some s →
  EnvVarContext.__exit__ self st
  = ((run_exit s (os_environ st)).1,
     set_environ (λ _, (run_exit s (os_environ st)).2) st).
Proof.
  intros Hsaved Hs. unfold EnvVarContext.__exit__. rewrite Hsaved.
  unfold dict_items. rewrite !bind_run. unfold read_dict. rewrite Hs. simpl.
  apply for_each_exit_step.
Qed.

Lemma exit_run self saved (s : pydict) st :
  EnvVarContext.saved_env_vars self = Some saved →
  heap st !! saved = Some s →
  overrides_ok s →
  EnvVarContext.__exit__ self st = (Return (), set_environ (apply_items s) st).
Proof.
  intros Hsaved Hs Hok. rewrite (exit_run_gen self saved s st Hsaved Hs).
  by rewrite run_exit_ok.
Qed.

Lemma init_run m (kwargs d : pydict) st :
  heap st !! m = Some d →
  let c := fresh (dom (heap st)) in
  let l := fresh (dom (<[c := d]> (heap st))) in
  EnvVarContext.__init__ m kwargs st
  = (Return {| EnvVarContext.env_vars := l; EnvVarContext.saved_env_vars := None |},
     set_heap (λ h, <[l := dict.update (dict.update [] d) kwargs]> (<[c := d]> h)) st).
Proof.
  intros Hm c l. unfold EnvVarContext.__init__, copy_deepcopy, dict_new.
  rewrite !bind_run. unfold read_dict at 1. rewrite Hm. simpl.
  rewrite !bind_run. unfold read_dict at 1. simpl.
  rewrite lookup_insert_eq. simpl.
  unfold dict_update, modify_dict. rewrite !bind_run.
  unfold read_dict. simpl. rewrite lookup_insert_eq. simpl.
  unfold set_heap. simpl. by rewrite insert_insert_eq.
Qed.

(** [__enter__], any block, [__exit__], for overrides and an environment
    that the store accepts: both return, the names of the overrides are
    back at their values of before [__enter__], and every other name keeps
    the value the block left. *)
Lemma enter_block_exit self (O : pydict) st :
  heap st !! EnvVarContext.env_vars self = Some O →
  overrides_ok O →
  environ_ok (os_environ st) →
  ∃ self1 st1,
    EnvVarContext.__enter__ self st = (Return self1, st1) ∧
    heap st1 !! EnvVarContext.env_vars self = Some O ∧
    (∀ l, is_Some (heap st !! l) → heap st1 !! l = heap st !! l) ∧
    (∀ saved, EnvVarContext.saved_env_vars self1 = Some saved → is_Some (heap st1 !! saved)) ∧
    os_environ st1 = apply_items O (os_environ st) ∧
    ∀ st2, block_keeps self1 st1 st2 →
      ∃ st3,
        EnvVarContext.__exit__ self1 st2 = (Return (), st3) ∧
        heap st3 = heap st2 ∧ files st3 = files st2 ∧
        (∀ W, W ∉ dict.keys O → os_environ st3 !! W = os_environ st2 !! W) ∧
        (dict.wf O → ∀ V, V ∈ dict.keys O → os_environ st3 !! V = os_environ st !! V).
Proof.
  intros HO Hok He. eexists _, _. split; [by apply enter_run|]. simpl.
  assert (Hfresh : ∀ l, is_Some (heap st !! l) → fresh (dom (heap st)) ≠ l).
  { intros l [x Hl]. by eapply fresh_lookup_ne. }
  split; [by rewrite lookup_insert_ne by by apply Hfresh|].
  split; [intros l Hl; by rewrite lookup_insert_ne by by apply Hfresh|].
  split; [intros saved [= <-]; rewrite lookup_insert_eq; by eexists|].
  split; [done|].
  intros st2 Hkeep. specialize (Hkeep _ eq_refl). simpl in Hkeep.
  rewrite lookup_insert_eq in Hkeep.
  assert (Hwf : dict.wf (saved_items O [] (os_environ st))).
  { apply wf_saved_items. apply NoDup_nil_2. }
  eexists. split.
  { eapply exit_run; [reflexivity|exact Hkeep|].
    apply overrides_ok_saved_items; [done..|constructor]. }
  simpl. do 2 (split; [done|]). split.
  - intros W HW. rewrite apply_items_get by done.
    by rewrite get_saved_items_notin.
  - intros HwfO V HV. rewrite apply_items_get by done.
    by rewrite get_saved_items_in.
Qed.

(** * Properties of [EnvVarContext] *)

Lemma sample_wf : dict.wf [("A", Some "1"); ("B", @None string)].
Proof. by apply (bool_decide_unpack _). Defined.

Lemma sample_overrides_ok : overrides_ok [("A", Some "1"); ("B", None)].
Proof. by apply (bool_decide_unpack _). Defined.

Lemma sample_environ_ok : environ_ok (os_environ sample_state).
Proof. apply (bool_decide_unpack _). vm_compute. exact I. Defined.

(** C1, as the code has it: for an environment and an override set (a
    dict, so with unique names) whose names and values [os.environ]
    accepts, [__enter__] followed by [__exit__] both return and leave every
    name of the override set with the value, or the absence, it had before
    [__enter__]. *)
Theorem enter_exit_restores (st : state) (self : EnvVarContext.t) (O : pydict) :
  heap st !! env_vars self = Some O →
  dict.wf O →
  overrides_ok O →
  environ_ok (os_environ st) →
  ∃ self1 st1 st2,
    __enter__ self st = (Return self1, st1) ∧
    __exit__ self1 st1 = (Return (), st2) ∧
    ∀ V, V ∈ dict.keys O → os_environ st2 !! V = os_environ st !! V.
Proof.
  intros HO Hwf Hok He.
  destruct (enter_block_exit self O st HO Hok He)
    as (self1 & st1 & Henter & _ & _ & _ & _ & Hexit).
  destruct (Hexit st1) as (st2 & Hex & _ & _ & _ & Hback); [by intros ??|].
  exists self1, st1, st2. auto.
Qed.

Lemma enter_exit_restores_witness :
  ∃ self1 st1 st2,
    __enter__ sample_ctx sample_state = (Return self1, st1) ∧
    __exit__ self1 st1 = (Return (), st2) ∧
    ∀ V, V ∈ ["A"; "B"] → os_environ st2 !! V = os_environ sample_state !! V.
Proof.
  apply (enter_exit_restores sample_state sample_ctx [("A", Some "1"); ("B", None)]).
  - reflexivity.
  - exact sample_wf.
  - exact sample_overrides_ok.
  - exact sample_environ_ok.
Defined.

(** C1 as stated fails: the override set [{'OK': '1', 'A=B': 'v'}] is
    refused at its second name.  [__enter__] raises [ValueError] with [OK]
    set, which was not set before, and there is no instance entered for an
    [__exit__] to follow. *)
Lemma enter_refused_half_way :
  ∃ st1,
    __enter__ sample_ctx refused_state = (Raise ValueError, st1) ∧
    os_environ refused_state !! "OK" = None ∧
    os_environ st1 !! "OK" = Some "1".
Proof.
  exists (__enter__ sample_ctx refused_state).2.
  split_and!; vm_compute; reflexivity.
Qed.

(** C2: a name outside the override set keeps its value, or its absence,
    through [__enter__], whether it returns or raises, and through the
    [__exit__] that follows an [__enter__] that returned, whether it returns
    or raises. *)
Theorem other_names_untouched (st : state) (self : EnvVarContext.t) (O : pydict)
    (W : string) :
  heap st !! env_vars self = Some O →
  W ∉ dict.keys O →
  os_environ (__enter__ self st).2 !! W = os_environ st !! W ∧
  ∀ self1 st1,
    __enter__ self st = (Return self1, st1) →
    os_environ (__exit__ self1 st1).2 !! W = os_environ st !! W.
Proof.
  intros HO HW.
  pose proof (enter_run_gen self O st HO) as Henter.
  assert (os_environ (__enter__ self st).2 !! W = os_environ st !! W) as H1.
  { rewrite Henter. simpl. by apply run_enter_frame. }
  split; [done|].
  intros self1 st1 Hret. rewrite Hret in H1. simpl in H1.
  rewrite Henter in Hret.
  destruct (run_enter O [] (os_environ st)).1.1 as [[]|x] eqn:Hr; [|done].
  injection Hret as <- <-.
  erewrite exit_run_gen; [|reflexivity|simpl; apply lookup_insert_eq].
  simpl. rewrite run_exit_frame; [done|].
  intros [Hin|Hin]%run_enter_keys; [|done]. by apply elem_of_nil in Hin.
Qed.

Lemma other_names_untouched_witness :
  os_environ (__enter__ sample_ctx sample_state).2 !! "CC"
  = os_environ sample_state !! "CC" ∧
  ∀ self1 st1,
    __enter__ sample_ctx sample_state = (Return self1, st1) →
    os_environ (__exit__ self1 st1).2 !! "CC" = os_environ sample_state !! "CC".
Proof.
  apply (other_names_untouched sample_state sample_ctx
           [("A", Some "1"); ("B", None)] "CC").
  - reflexivity.
  - by apply (bool_decide_unpack _).
Defined.

(** C3: a variable with value [x] that the override set maps to [None] is
    absent after [__enter__] and has the value [x] again after [__exit__];
    the override set and the environment being such as [os.environ]
    accepts. *)
Theorem present_to_unset_round_trip (st : state) (self : EnvVarContext.t)
    (O : pydict) (V x : string) :
  heap st !! env_vars self = Some O →
  dict.wf O →
  overrides_ok O →
  environ_ok (os_environ st) →
  os_environ st !! V = Some x →
  (V, None) ∈ O →
  ∃ self1 st1 st2,
    __enter__ self st = (Return self1, st1) ∧
    os_environ st1 !! V = None ∧
    __exit__ self1 st1 = (Return (), st2) ∧
    os_environ st2 !! V = Some x.
Proof.
  intros HO Hwf Hok He Hx HV.
  destruct (enter_block_exit self O st HO Hok He)
    as (self1 & st1 & Henter & _ & _ & _ & Henv & Hexit).
  destruct (Hexit st1) as (st2 & Hex & _ & _ & _ & Hback); [by intros ??|].
  exists self1, st1, st2. repeat split; [done| |done|].
  - rewrite Henv. by apply apply_items_in.
  - rewrite <- Hx. apply Hback; [done|].
    apply list_elem_of_fmap. by exists (V, None).
Qed.

Lemma present_to_unset_round_trip_witness :
  ∃ self1 st1 st2,
    __enter__ sample_ctx sample_state = (Return self1, st1) ∧
    os_environ st1 !! "B" = None ∧
    __exit__ self1 st1 = (Return (), st2) ∧
    os_environ st2 !! "B" = Some "x".
Proof.
  apply (present_to_unset_round_trip sample_state sample_ctx
           [("A", Some "1"); ("B", None)] "B" "x").
  - reflexivity.
  - exact sample_wf.
  - exact sample_overrides_ok.
  - exact sample_environ_ok.
  - reflexivity.
  - by apply (bool_decide_unpack _).
Defined.

(** C4: a variable that is absent and that the override set maps to a
    string has that value after [__enter__] and is absent again after
    [__exit__]; the override set and the environment being such as
    [os.environ] accepts. *)
Theorem unset_round_trip (st : state) (self : EnvVarContext.t)
    (O : pydict) (V y : string) :
  heap st !! env_vars self = Some O →
  dict.wf O →
  overrides_ok O →
  environ_ok (os_environ st) →
  os_environ st !! V = None →
  (V, Some y) ∈ O →
  ∃ self1 st1 st2,
    __enter__ self st = (Return self1, st1) ∧
    os_environ st1 !! V = Some y ∧
    __exit__ self1 st1 = (Return (), st2) ∧
    os_environ st2 !! V = None.
Proof.
  intros HO Hwf Hok He Hx HV.
  destruct (enter_block_exit self O st HO Hok He)
    as (self1 & st1 & Henter & _ & _ & _ & Henv & Hexit).
  destruct (Hexit st1) as (st2 & Hex & _ & _ & _ & Hback); [by intros ??|].
  exists self1, st1, st2. repeat split; [done| |done|].
  - rewrite Henv. by apply apply_items_in.
  - rewrite <- Hx. apply Hback; [done|].
    apply list_elem_of_fmap. by exists (V, Some y).
Qed.

Lemma unset_round_trip_witness :
  ∃ self1 st1 st2,
    __enter__ sample_ctx sample_state = (Return self1, st1) ∧
    os_environ st1 !! "A" = Some "1" ∧
    __exit__ self1 st1 = (Return (), st2) ∧
    os_environ st2 !! "A" = None.
Proof.
  apply (unset_round_trip sample_state sample_ctx
           [("A", Some "1"); ("B", None)] "A" "1").
  - reflexivity.
  - exact sample_wf.
  - exact sample_overrides_ok.
  - exact sample_environ_ok.
  - reflexivity.
  - by apply (bool_decide_unpack _).
Defined.

(** C5: nested scopes.  [V] starts absent and the outer instance overrides
    it to [a]: after the outer [__enter__], [V] is [a].  Then, for an inner
    instance that overrides [V] to [b], built before the outer [__enter__]
    or inside the outer block (which runs from [st1] to [st1'] and leaves
    [V] and the outer instance alone): after the inner [__enter__], [V] is
    [b]; after the inner [__exit__] it is [a], the value the inner
    [__enter__] saved; after the outer [__exit__] it is absent.  The
    override sets and the environments are such as [os.environ] accepts. *)
Theorem nested_scopes_compose (st : state) (outer : EnvVarContext.t)
    (O1 : pydict) (V a : string) :
  heap st !! env_vars outer = Some O1 →
  dict.wf O1 →
  overrides_ok O1 →
  environ_ok (os_environ st) →
  os_environ st !! V = None →
  (V, Some a) ∈ O1 →
  ∃ outer1 st1,
    __enter__ outer st = (Return outer1, st1) ∧
    os_environ st1 !! V = Some a ∧
    environ_ok (os_environ st1) ∧
    (∀ l, is_Some (heap st !! l) → heap st1 !! l = heap st !! l) ∧
    ∀ st1' (inner : EnvVarContext.t) (O2 : pydict) (b : string),
      block_keeps outer1 st1 st1' →
      os_environ st1' !! V = Some a →
      environ_ok (os_environ st1') →
      heap st1' !! env_vars inner = Some O2 →
      dict.wf O2 →
      overrides_ok O2 →
      (V, Some b) ∈ O2 →
      ∃ inner1 st2 st3 st4,
        __enter__ inner st1' = (Return inner1, st2) ∧
        os_environ st2 !! V = Some b ∧
        __exit__ inner1 st2 = (Return (), st3) ∧
        os_environ st3 !! V = Some a ∧
        __exit__ outer1 st3 = (Return (), st4) ∧
        os_environ st4 !! V = None.
Proof.
  intros HO1 Hwf1 Hok1 He HV Ha.
  assert (V ∈ dict.keys O1) as HV1 by (apply list_elem_of_fmap; by exists (V, Some a)).
  destruct (enter_block_exit outer O1 st HO1 Hok1 He)
    as (outer1 & st1 & Henter1 & _ & Hheap1 & Hsaved1 & Henv1 & Hexit1).
  exists outer1, st1. split_and!; [done| | |done|].
  { rewrite Henv1. by apply apply_items_in. }
  { rewrite Henv1. by apply environ_ok_apply_items. }
  intros st1' inner O2 b Hkeep HVa He' HO2 Hwf2 Hok2 Hb.
  assert (V ∈ dict.keys O2) as HV2 by (apply list_elem_of_fmap; by exists (V, Some b)).
  destruct (enter_block_exit inner O2 st1' HO2 Hok2 He')
    as (inner1 & st2 & Henter2 & _ & Hheap2 & _ & Henv2 & Hexit2).
  destruct (Hexit2 st2) as (st3 & Hex2 & Hheap3 & _ & _ & Hback2); [by intros ??|].
  destruct (Hexit1 st3) as (st4 & Hex1 & _ & _ & _ & Hback1).
  { intros saved Hs. rewrite Hheap3, <- (Hkeep saved Hs). apply Hheap2.
    rewrite (Hkeep saved Hs). by apply Hsaved1. }
  exists inner1, st2, st3, st4. split_and!; [done| |done| |done|].
  - rewrite Henv2. by apply apply_items_in.
  - rewrite <- HVa. by apply Hback2.
  - rewrite <- HV. by apply Hback1.
Qed.

Lemma nested_scopes_compose_witness :
  ∃ outer1 st1 inner1 st2 st3 st4,
    __enter__ sample_ctx sample_state = (Return outer1, st1) ∧
    os_environ st1 !! "A" = Some "1" ∧
    __enter__ sample_inner st1 = (Return inner1, st2) ∧
    os_environ st2 !! "A" = Some "2" ∧
    __exit__ inner1 st2 = (Return (), st3) ∧
    os_environ st3 !! "A" = Some "1" ∧
    __exit__ outer1 st3 = (Return (), st4) ∧
    os_environ st4 !! "A" = None.
Proof.
  destruct (nested_scopes_compose sample_state sample_ctx
              [("A", Some "1"); ("B", None)] "A" "1"
              eq_refl sample_wf sample_overrides_ok sample_environ_ok eq_refl)
    as (outer1 & st1 & Henter1 & HVa & He1 & Hheap1 & Hinner).
  { by apply (bool_decide_unpack _). }
  destruct (Hinner st1 sample_inner [("A", Some "2")] "2")
    as (inner1 & st2 & st3 & st4 & Henter2 & HVb & Hex2 & HV3 & Hex1 & HV4).
  - intros saved _. reflexivity.
  - exact HVa.
  - exact He1.
  - rewrite Hheap1; [reflexivity|]. by eexists.
  - by apply (bool_decide_unpack _).
  - by apply (bool_decide_unpack _).
  - by apply (bool_decide_unpack _).
  - exists outer1, st1, inner1, st2, st3, st4. by split_and!.
Defined.

(** C10: [__exit__] writes only the names saved by [__enter__], those of
    the override set.  After an [__enter__] with overrides and an
    environment that [os.environ] accepts, whatever environment the scoped
    block leaves behind (the block not touching the instance's dict of
    saved values), [__exit__] returns and a name outside the override set
    has the value, or the absence, the block gave it; the dict objects and
    the files are not changed by [__exit__] either. *)
Theorem exit_keeps_block_changes (st : state) (self : EnvVarContext.t)
    (O : pydict) :
  heap st !! env_vars self = Some O →
  overrides_ok O →
  environ_ok (os_environ st) →
  ∃ self1 st1,
    __enter__ self st = (Return self1, st1) ∧
    ∀ st2, block_keeps self1 st1 st2 →
      ∃ st3,
        __exit__ self1 st2 = (Return (), st3) ∧
        heap st3 = heap st2 ∧ files st3 = files st2 ∧
        ∀ W, W ∉ dict.keys O → os_environ st3 !! W = os_environ st2 !! W.
Proof.
  intros HO Hok He.
  destruct (enter_block_exit self O st HO Hok He)
    as (self1 & st1 & Henter & _ & _ & _ & _ & Hexit).
  exists self1, st1. split; [done|].
  intros st2 Hkeep.
  destruct (Hexit st2 Hkeep) as (st3 & Hex & Hheap & Hfiles & Hother & _).
  by exists st3.
Qed.

Lemma exit_keeps_block_changes_witness :
  ∃ self1 st1,
    __enter__ sample_ctx sample_state = (Return self1, st1) ∧
    ∃ st3,
      __exit__ self1 (sample_block st1) = (Return (), st3) ∧
      os_environ st3 !! "CC" = Some "clang" ∧
      os_environ st3 !! "YB_Z" = None ∧
      os_environ st3 !! "NEW" = Some "n".
Proof.
  destruct (exit_keeps_block_changes sample_state sample_ctx
              [("A", Some "1"); ("B", None)] eq_refl
              sample_overrides_ok sample_environ_ok)
    as (self1 & st1 & Henter & Hexit).
  exists self1, st1. split; [exact Henter|].
  destruct (Hexit (sample_block st1)) as (st3 & Hex & _ & _ & Hother).
  { intros saved _. reflexivity. }
  exists st3. split; [exact Hex|].
  rewrite !Hother by (by apply (bool_decide_unpack _)).
  unfold sample_block, set_environ. simpl.
  split_and!.
  - rewrite lookup_insert_ne by done. rewrite lookup_delete_ne by done.
    apply lookup_insert_eq.
  - rewrite lookup_insert_ne by done. apply lookup_delete_eq.
  - apply lookup_insert_eq.
Defined.



(** C7: [__init__] leaves the environment as it is (the overrides are
    applied by [__enter__] only) and mutates no object of the caller, the
    mapping it is given in particular.  [copy.deepcopy] makes a new object
    [c] with the items of the mapping, and the instance's override set is a
    further new object, built from [c] and the keyword arguments; the
    caller holds neither.  So whatever the caller stores in its mapping
    afterwards, the instance's override set is the same, and [__enter__]
    ends the same way and leaves the same environment. *)
Theorem init_copies_mapping (st : state) (m : nat) (d kwargs : pydict) :
  heap st !! m = Some d →
  ∃ self st1 c,
    __init__ m kwargs st = (Return self, st1) ∧
    os_environ st1 = os_environ st ∧
    files st1 = files st ∧
    (∀ l, is_Some (heap st !! l) → heap st1 !! l = heap st !! l) ∧
    heap st1 !! m = Some d ∧
    heap st !! c = None ∧
    heap st1 !! c = Some d ∧
    heap st !! env_vars self = None ∧
    env_vars self ≠ c ∧
    env_vars self ≠ m ∧
    heap st1 !! env_vars self = Some (dict.update (dict.update [] d) kwargs) ∧
    ∀ d' : pydict,
      ∃ st1',
        write_dict m d' st1 = (Return (), st1') ∧
        heap st1' !! env_vars self = heap st1 !! env_vars self ∧
        (__enter__ self st1').1 = (__enter__ self st1).1 ∧
        os_environ (__enter__ self st1').2 = os_environ (__enter__ self st1).2.
Proof.
  intros Hm.
  set (c := fresh (dom (heap st))).
  set (l := fresh (dom (<[c := d]> (heap st)))).
  assert (Hc : ∀ l0, is_Some (heap st !! l0) → c ≠ l0).
  { intros l0 [x Hx]. by eapply fresh_lookup_ne. }
  assert (Hlc : l ≠ c).
  { eapply (fresh_lookup_ne (<[c := d]> (heap st))). apply lookup_insert_eq. }
  assert (Hl : ∀ l0, is_Some (heap st !! l0) → l ≠ l0).
  { intros l0 [x Hx]. eapply (fresh_lookup_ne (<[c := d]> (heap st))).
    rewrite lookup_insert_ne; [done|]. apply Hc. by eexists. }
  assert (Hlm : l ≠ m) by (apply Hl; by eexists).
  assert (Hcfresh : heap st !! c = None) by apply not_elem_of_dom, is_fresh.
  assert (Hlfresh : heap st !! l = None).
  { destruct (heap st !! l) eqn:Hx; [|done]. destruct (Hl l); [by eexists|done]. }
  eexists _, _, c. split; [by apply init_run|]. simpl.
  fold c. fold l.
  assert (Hkeep : ∀ l0, is_Some (heap st !! l0) →
    <[l := dict.update (dict.update [] d) kwargs]> (<[c := d]> (heap st)) !! l0
    = heap st !! l0).
  { intros l0 Hl0. rewrite lookup_insert_ne by by apply Hl.
    by rewrite lookup_insert_ne by by apply Hc. }
  split_and!; [done..| | | | | | | |].
  - rewrite Hkeep; [done|by eexists].
  - done.
  - rewrite lookup_insert_ne by done. apply lookup_insert_eq.
  - done.
  - done.
  - done.
  - by apply lookup_insert_eq.
  - intros d'. eexists. split; [reflexivity|]. simpl.
    split; [by rewrite lookup_insert_ne by done|].
    erewrite (enter_run_gen _ _ (set_heap _ _)).
    2:{ simpl. rewrite lookup_insert_ne by done. by apply lookup_insert_eq. }
    erewrite (enter_run_gen _ _ (set_heap _ st)).
    2:{ simpl. by apply lookup_insert_eq. }
    simpl. rewrite dom_insert_lookup_L.
    2:{ rewrite Hkeep; by eexists. }
    done.
Qed.

Lemma init_copies_mapping_witness :
  ∃ self st1 c,
    __init__ 0%nat [("B", Some "k")] sample_state = (Return self, st1) ∧
    os_environ st1 = os_environ sample_state ∧
    files st1 = files sample_state ∧
    (∀ l, is_Some (heap sample_state !! l) → heap st1 !! l = heap sample_state !! l) ∧
    heap st1 !! 0%nat = Some [("A", Some "1"); ("B", None)] ∧
    heap sample_state !! c = None ∧
    heap st1 !! c = Some [("A", Some "1"); ("B", None)] ∧
    heap sample_state !! env_vars self = None ∧
    env_vars self ≠ c ∧
    env_vars self ≠ 0%nat ∧
    heap st1 !! env_vars self
    = Some (dict.update (dict.update [] [("A", Some "1"); ("B", None)])
              [("B", Some "k")]) ∧
    ∀ d' : pydict,
      ∃ st1',
        write_dict 0%nat d' st1 = (Return (), st1') ∧
        heap st1' !! env_vars self = heap st1 !! env_vars self ∧
        (__enter__ self st1').1 = (__enter__ self st1).1 ∧
        os_environ (__enter__ self st1').2 = os_environ (__enter__ self st1).2.
Proof.
  apply (init_copies_mapping sample_state 0%nat
           [("A", Some "1"); ("B", None)] [("B", Some "k")]).
  reflexivity.
Defined.

(** Reading through the caller's reference instead: a later store into
    the caller's mapping changes what [__enter__] does. *)
Example shared_reference_would_differ :
  let shared := {| env_vars := 1%nat; saved_env_vars := None |} in
  let st' := (write_dict 1%nat [("A", Some "3")] sample_state).2 in
  os_environ (__enter__ shared sample_state).2 !! "A" = Some "2" ∧
  os_environ (__enter__ shared st').2 !! "A" = Some "3".
Proof. split; vm_compute; reflexivity. Qed.

(** * [write_env_vars] *)

(** The allow-list, as [split_into_word_set] gives it from the literal. *)
Example ENV_VARS_TO_SAVE_names :
  ENV_VARS_TO_SAVE =
  list_to_set ["ASAN_OPTIONS"; "CC"; "CFLAGS"; "CPPFLAGS"; "CXX"; "CXXFLAGS";
               "LANG"; "LDFLAGS"; "PATH"; "PYTHONPATH"; "NM"; "AR"; "LD"; "AS"].
Proof. apply (bool_decide_unpack _). vm_cast_no_check I. Qed.

Lemma app_cons c (s t : string) : String c s +:+ t = String c (s +:+ t).
Proof. reflexivity. Qed.

Lemma app_nil_r (s : string) : s +:+ "" = s.
Proof. induction s as [|c s IH]; [done|]. by rewrite app_cons, IH. Qed.

Lemma app_assoc (s t u : string) : (s +:+ t) +:+ u = s +:+ t +:+ u.
Proof. induction s as [|c s IH]; [done|]. by rewrite !app_cons, IH. Qed.

Global Instance item_le_total : Total item_le.
Proof.
  intros a b. unfold item_le.
  destruct (decide (a.1 = b.1)) as [Heq|Hne].
  - rewrite decide_True by done. apply (total String.le).
  - rewrite decide_False by (by intros ?). apply (total String.le).
Qed.

Global Instance item_le_trans : Transitive item_le.
Proof.
  intros a b c. unfold item_le.
  destruct (decide (a.1 = b.1)) as [Hab|Hab], (decide (b.1 = c.1)) as [Hbc|Hbc].
  - rewrite decide_True by congruence. apply transitivity.
  - rewrite decide_False by congruence. by rewrite Hab.
  - rewrite decide_False by congruence. by rewrite Hbc.
  - intros H1 H2. destruct (decide (a.1 = c.1)) as [Hac|Hac].
    + destruct Hab. apply (anti_symm String.le); [done|]. by rewrite Hac.
    + by etrans.
Qed.

Lemma write_env_vars_loop_script dts kvs env_script :
  write_env_vars_loop dts kvs env_script
  = env_script +:+ script_of (filter (λ kv, is_saved dts kv.1) kvs).
Proof.
  revert env_script. induction kvs as [|[k v] kvs IH]; intros env_script.
  - cbn [write_env_vars_loop]. by rewrite filter_nil, app_nil_r.
  - cbn [write_env_vars_loop]. rewrite IH, filter_cons. cbn [fst].
    destruct (is_saved dts k) eqn:Hk.
    + rewrite decide_True by done. unfold script_of at 2.
      cbn [foldr fst snd]. by rewrite app_assoc.
    + rewrite decide_False; [done|]. by intros [].
Qed.

Lemma NoDup_fst_filter (P : string * string → Prop) `{!∀ x, Decision (P x)}
    (l : list (string * string)) :
  NoDup l.*1 → NoDup (filter P l).*1.
Proof.
  induction l as [|x l IH]; intros Hnd; [constructor|].
  simpl in Hnd. apply NoDup_cons in Hnd as [Hx Hnd].
  rewrite filter_cons. destruct (decide (P x)); [|by apply IH].
  simpl. apply NoDup_cons. split; [|by apply IH].
  intros (y & Heq & [_ Hy]%list_elem_of_filter)%list_elem_of_fmap.
  apply Hx. rewrite Heq. by apply list_elem_of_fmap_2.
Qed.

Lemma is_saved_spec dts k :
  is_saved dts k ↔
  k ∈ ENV_VARS_TO_SAVE ∨ k ∈ dts ∨ String.prefix "YB_" k = true.
Proof.
  unfold is_saved. rewrite !orb_True, !bool_decide_spec, Is_true_true. tauto.
Qed.

Lemma sorted_names_strict (P : string * string → Prop) `{!∀ x, Decision (P x)}
    (l : list (string * string)) :
  StronglySorted item_le l → NoDup l.*1 →
  StronglySorted (strict String.le) (filter P l).*1.
Proof.
  induction l as [|x l IH]; intros Hs Hnd; [constructor|].
  apply StronglySorted_inv in Hs as [Hs Hx].
  simpl in Hnd. apply NoDup_cons in Hnd as [Hx1 Hnd].
  rewrite filter_cons. destruct (decide (P x)); [|by apply IH].
  simpl. constructor; [by apply IH|].
  apply Forall_fmap, Forall_forall. intros y [_ Hy]%list_elem_of_filter.
  rewrite Forall_forall in Hx. specialize (Hx y Hy).
  assert (x.1 ≠ y.1) as Hne.
  { intros Heq. apply Hx1. rewrite Heq. by apply list_elem_of_fmap_2. }
  unfold item_le in Hx. rewrite decide_False in Hx by done.
  split; [done|]. intros Hyx. apply Hne. by apply (anti_symm String.le).
Qed.

Lemma write_env_vars_run dts can_open encodes file_path st :
  write_env_vars dts can_open encodes file_path st
  = written can_open encodes file_path
      (script_of (filter (λ kv, is_saved dts kv.1)
                    (sorted (map_to_list (os_environ st))))) st.
Proof.
  unfold write_env_vars, written, open_for_writing, write_text.
  rewrite write_env_vars_loop_script. rewrite bind_run.
  change ("" +:+ ?s) with s.
  destruct (can_open file_path); [|done]. simpl.
  match goal with |- context [encodes ?s] => destruct (encodes s) end; [|done].
  unfold set_files. simpl. rewrite lookup_insert_eq. simpl.
  change ("" +:+ ?s) with s. by rewrite insert_insert_eq.
Qed.

Lemma elem_of_exported dts (e : gmap string string) k v :
  (k, v) ∈ filter (λ kv, is_saved dts kv.1) (sorted (map_to_list e))
  ↔ e !! k = Some v ∧ is_saved dts k.
Proof.
  rewrite list_elem_of_filter. unfold sorted.
  rewrite merge_sort_Permutation, elem_of_map_to_list. cbn [fst]. tauto.
Qed.

(** C8, as the code has it: [write_env_vars] writes to [file_path] the
    export statements [export NAME=quoted_value] of exactly the current
    environment variables whose name is in [ENV_VARS_TO_SAVE], or in
    [DEVTOOLSET_ENV_VARS], or starts with [YB_]; one statement for each, in
    increasing order of the names; and nothing else.  That is when the file
    can be opened and the script encoded; when the script cannot be
    encoded the file is left empty and [UnicodeEncodeError] is raised, and
    when the file cannot be opened [OSError] is raised and nothing is
    written. *)
Theorem write_env_vars_exports (DEVTOOLSET_ENV_VARS : gset string)
    (can_open encodes : string → bool) (file_path : string) (st : state) :
  ∃ L : list (string * string),
    write_env_vars DEVTOOLSET_ENV_VARS can_open encodes file_path st
    = written can_open encodes file_path (script_of L) st ∧
    (∀ k v, (k, v) ∈ L ↔
       os_environ st !! k = Some v ∧
       (k ∈ ENV_VARS_TO_SAVE ∨ k ∈ DEVTOOLSET_ENV_VARS ∨ String.prefix "YB_" k = true)) ∧
    NoDup L.*1 ∧
    StronglySorted (strict String.le) L.*1.
Proof.
  set (P := λ kv : string * string, is_saved DEVTOOLSET_ENV_VARS kv.1 : Prop).
  exists (filter P (sorted (map_to_list (os_environ st)))).
  assert (Hperm : sorted (map_to_list (os_environ st)) ≡ₚ map_to_list (os_environ st))
    by apply merge_sort_Permutation.
  assert (Hnd : NoDup (sorted (map_to_list (os_environ st))).*1).
  { rewrite Hperm. apply NoDup_fst_map_to_list. }
  split_and!.
  - apply write_env_vars_run.
  - intros k v. unfold P. rewrite elem_of_exported, is_saved_spec. tauto.
  - apply NoDup_fst_filter, Hnd.
  - apply sorted_names_strict; [|done]. apply StronglySorted_merge_sort; apply _.
Qed.

(** C8 as stated fails: with [YB_X=1] alone in the environment and an
    empty [DEVTOOLSET_ENV_VARS], the script of the allow-list is empty, and
    [write_env_vars] writes an export statement for [YB_X]. *)
Lemma write_env_vars_beyond_allow_list :
  ("YB_X" ∉ ENV_VARS_TO_SAVE) ∧
  allow_list_script (os_environ yb_state) = "" ∧
  write_env_vars ∅ always always "env.sh" yb_state
  = (Return (), set_files <["env.sh" := "export YB_X=1" +:+ newline]> yb_state) ∧
  files (write_env_vars ∅ always always "env.sh" yb_state).2 !! "env.sh"
  ≠ Some (allow_list_script (os_environ yb_state)).
Proof.
  split_and!.
  - apply (bool_decide_unpack _). vm_compute. exact I.
  - vm_compute. reflexivity.
  - vm_compute. reflexivity.
  - vm_compute. discriminate.
Qed.

(** * [join_dir_list] *)

Lemma str_join_concat sep l : str_join sep l = String.concat sep l.
Proof.
  induction l as [|x [|y l] IH]; [done..|].
  change (str_join sep (x :: y :: l)) with (x +:+ sep +:+ str_join sep (y :: l)).
  by rewrite IH.
Qed.

(** C9: [join_dir_list] is the colon-join of the non-empty elements of
    [dirs] themselves; the stripped names are not used, so an element keeps
    its whitespace, and an element of whitespace only is kept. *)
Theorem join_dir_list_unstripped :
  (∀ dirs, join_dir_list dirs = colon_join_nonempty dirs) ∧
  join_dir_list [" "] = " " ∧
  join_dir_list ["/a"; " "; ""; " /b "] = "/a: : /b " ∧
  strip " /b " = "/b" ∧ strip " " = "".
Proof.
  split_and!; [|reflexivity..].
  intros dirs. unfold join_dir_list, colon_join_nonempty. apply str_join_concat.
Qed.


(** * Further properties of [dict_set_or_del] *)


(** X2: [dict_set_or_del] on a plain [dict]: the keys stay unique, [d.get(k)]
    is [v] afterwards ([None] when the key was removed or was never there),
    and every other key keeps its value. *)
Theorem dict_set_or_del_dict {V} (d : dict.t V) (k : string) (v : option V) :
  dict.wf d →
  dict.wf (dict_set_or_del d k v) ∧
  dict.get (dict_set_or_del d k v) k = v ∧
  ∀ k', k' ≠ k → dict.get (dict_set_or_del d k v) k' = dict.get d k'.
Proof.
  intros Hwf. destruct v as [v|]; simpl.
  - split_and!.
    + by apply wf_setitem.
    + rewrite get_setitem. by rewrite decide_True.
    + intros k' Hne. rewrite get_setitem. by rewrite decide_False.
  - unfold dict.contains. case_bool_decide as Hin.
    + split_and!.
      * by apply wf_delitem.
      * rewrite get_delitem by done. by rewrite decide_True.
      * intros k' Hne. rewrite get_delitem by done. by rewrite decide_False.
    + split_and!; [done|by apply get_None|done].
Qed.

Lemma dict_set_or_del_dict_witness :
  let d := [("A", 1%nat); ("B", 2%nat)] in
  dict.wf (dict_set_or_del d "A" None) ∧
  dict.get (dict_set_or_del d "A" None) "A" = None ∧
  ∀ k', k' ≠ "A" → dict.get (dict_set_or_del d "A" None) k' = dict.get d k'.
Proof.
  apply (dict_set_or_del_dict [("A", 1%nat); ("B", 2%nat)] "A" None).
  by apply (bool_decide_unpack _).
Defined.


(** * Further properties of [EnvVarContext] *)

(** X4: with unique names in the override set, and overrides and an
    environment that [os.environ] accepts, [__enter__] followed by
    [__exit__] gives back the whole environment: the two are equal as
    mappings.  The files and the dict objects there were are as before. *)
Theorem enter_exit_identity (st : state) (self : EnvVarContext.t) (O : pydict) :
  heap st !! env_vars self = Some O →
  dict.wf O →
  overrides_ok O →
  environ_ok (os_environ st) →
  ∃ self1 st1 st2,
    __enter__ self st = (Return self1, st1) ∧
    __exit__ self1 st1 = (Return (), st2) ∧
    os_environ st2 = os_environ st ∧
    files st2 = files st ∧
    ∀ l, is_Some (heap st !! l) → heap st2 !! l = heap st !! l.
Proof.
  intros HO Hwf Hok He.
  pose proof (enter_run self O st HO Hok) as Henter.
  destruct (enter_block_exit self O st HO Hok He)
    as (self1 & st1 & Henter' & _ & Hheap & _ & Henv & Hexit).
  destruct (Hexit st1) as (st2 & Hex & Hheap2 & Hfiles & Hother & Hback);
    [by intros ??|].
  exists self1, st1, st2. split_and!; [done..| | |].
  - apply map_eq. intros k.
    destruct (decide (k ∈ dict.keys O)) as [Hin|Hnin]; [by apply Hback|].
    rewrite Hother, Henv by done. by apply apply_items_notin.
  - rewrite Hfiles. rewrite Henter in Henter'. by injection Henter' as _ <-.
  - intros l Hl. rewrite Hheap2. by apply Hheap.
Qed.

Lemma enter_exit_identity_witness :
  ∃ self1 st1 st2,
    __enter__ sample_ctx sample_state = (Return self1, st1) ∧
    __exit__ self1 st1 = (Return (), st2) ∧
    os_environ st2 = os_environ sample_state ∧
    files st2 = files sample_state ∧
    ∀ l, is_Some (heap sample_state !! l) → heap st2 !! l = heap sample_state !! l.
Proof.
  apply (enter_exit_identity sample_state sample_ctx [("A", Some "1"); ("B", None)]).
  - reflexivity.
  - exact sample_wf.
  - exact sample_overrides_ok.
  - exact sample_environ_ok.
Defined.





(** X7: [__init__] does not bind [saved_env_vars]: [__exit__] on an
    instance that was never entered raises [AttributeError] and changes
    nothing. *)
Theorem exit_before_enter_raises (st : state) (m : nat) (d kwargs : pydict) :
  heap st !! m = Some d →
  ∃ self st1,
    __init__ m kwargs st = (Return self, st1) ∧
    __exit__ self st1 = (Raise AttributeError, st1).
Proof.
  intros Hm. eexists _, _. split; [by apply init_run|]. reflexivity.
Qed.

Lemma exit_before_enter_raises_witness :
  ∃ self st1,
    __init__ 0%nat [("B", Some "k")] sample_state = (Return self, st1) ∧
    __exit__ self st1 = (Raise AttributeError, st1).
Proof.
  apply (exit_before_enter_raises sample_state 0%nat
           [("A", Some "1"); ("B", None)] [("B", Some "k")]).
  reflexivity.
Defined.

(** X8: a second [__exit__] changes nothing: the saved values are kept and
    written again.  (Overrides and environment such as [os.environ]
    accepts; the block leaves the dict of saved values alone.) *)
Theorem exit_twice (st : state) (self : EnvVarContext.t) (O : pydict) :
  heap st !! env_vars self = Some O →
  overrides_ok O →
  environ_ok (os_environ st) →
  ∃ self1 st1,
    __enter__ self st = (Return self1, st1) ∧
    ∀ st2, block_keeps self1 st1 st2 →
      ∃ st3,
        __exit__ self1 st2 = (Return (), st3) ∧
        __exit__ self1 st3 = (Return (), st3).
Proof.
  intros HO Hok He. eexists _, _. split; [by apply enter_run|].
  intros st2 Hkeep. specialize (Hkeep _ eq_refl). simpl in Hkeep.
  rewrite lookup_insert_eq in Hkeep.
  assert (overrides_ok (saved_items O [] (os_environ st))) as Hsaved
    by (apply overrides_ok_saved_items; [done..|constructor]).
  eexists. split; [by eapply exit_run|].
  erewrite exit_run; [|reflexivity|exact Hkeep|done].
  unfold set_environ. simpl. rewrite apply_items_twice; [done|].
  apply wf_saved_items, NoDup_nil_2.
Qed.

Lemma exit_twice_witness :
  ∃ self1 st1,
    __enter__ sample_ctx sample_state = (Return self1, st1) ∧
    ∃ st3,
      __exit__ self1 (sample_block st1) = (Return (), st3) ∧
      __exit__ self1 st3 = (Return (), st3).
Proof.
  destruct (exit_twice sample_state sample_ctx
              [("A", Some "1"); ("B", None)] eq_refl
              sample_overrides_ok sample_environ_ok)
    as (self1 & st1 & Henter & Hexit).
  exists self1, st1. split; [exact Henter|].
  apply (Hexit (sample_block st1)). intros saved _. reflexivity.
Defined.

(** X9: an instance is not re-entrant.  [__enter__] rebinds
    [saved_env_vars], so entering one instance a second time before its
    [__exit__] replaces the saved values by the overridden ones: after the
    two [__exit__]s (both of the same object, hence of the instance as the
    second [__enter__] left it) a variable of the override set still has
    the override, whatever it was at the start.  (Overrides and environment
    such as [os.environ] accepts.) *)
Theorem same_instance_nested_keeps_override (st : state)
    (self : EnvVarContext.t) (O : pydict) (V : string) (v : option string) :
  heap st !! env_vars self = Some O →
  dict.wf O →
  overrides_ok O →
  environ_ok (os_environ st) →
  (V, v) ∈ O →
  ∃ self1 st1 self2 st2 st3 st4,
    __enter__ self st = (Return self1, st1) ∧
    __enter__ self1 st1 = (Return self2, st2) ∧
    __exit__ self2 st2 = (Return (), st3) ∧
    __exit__ self2 st3 = (Return (), st4) ∧
    os_environ st4 !! V = v.
Proof.
  intros HO Hwf Hok He HV.
  assert (V ∈ dict.keys O) as HVk by (apply list_elem_of_fmap; by exists (V, v)).
  pose proof (enter_run self O st HO Hok) as Henter1.
  set (self1 := {| env_vars := env_vars self;
                   saved_env_vars := Some (fresh (dom (heap st))) |}) in *.
  set (st1 := {| heap := <[fresh (dom (heap st)) := saved_items O [] (os_environ st)]>
                           (heap st);
                 os_environ := apply_items O (os_environ st);
                 files := files st |}) in *.
  assert (heap st1 !! env_vars self1 = Some O) as HO1.
  { simpl. rewrite lookup_insert_ne; [done|]. by eapply fresh_lookup_ne. }
  assert (os_environ st1 !! V = v) as HV1 by (by apply apply_items_in).
  assert (environ_ok (os_environ st1)) as He1 by (by apply environ_ok_apply_items).
  destruct (enter_block_exit self1 O st1 HO1 Hok He1)
    as (self2 & st2 & Henter2 & _ & _ & _ & _ & Hexit).
  destruct (Hexit st2) as (st3 & Hex3 & Hheap3 & _ & _ & Hback3); [by intros ??|].
  destruct (Hexit st3) as (st4 & Hex4 & _ & _ & _ & Hback4).
  { intros saved _. by rewrite Hheap3. }
  exists self1, st1, self2, st2, st3, st4. split_and!; [done..|].
  rewrite Hback4 by done. exact HV1.
Qed.

Lemma same_instance_nested_keeps_override_witness :
  os_environ sample_state !! "A" = None ∧
  ∃ self1 st1 self2 st2 st3 st4,
    __enter__ sample_ctx sample_state = (Return self1, st1) ∧
    __enter__ self1 st1 = (Return self2, st2) ∧
    __exit__ self2 st2 = (Return (), st3) ∧
    __exit__ self2 st3 = (Return (), st4) ∧
    os_environ st4 !! "A" = Some "1".
Proof.
  split; [reflexivity|].
  apply (same_instance_nested_keeps_override sample_state sample_ctx
           [("A", Some "1"); ("B", None)] "A" (Some "1")).
  - reflexivity.
  - exact sample_wf.
  - exact sample_overrides_ok.
  - exact sample_environ_ok.
  - by apply (bool_decide_unpack _).
Defined.

(** X10: the override set of an instance.  For every name: the value of
    the keyword argument of that name, and the value of the mapping when
    there is no such keyword argument; the names are unique. *)
Theorem init_merges (st : state) (m : nat) (d kwargs : pydict) :
  heap st !! m = Some d →
  dict.wf d →
  dict.wf kwargs →
  ∃ self st1 O,
    __init__ m kwargs st = (Return self, st1) ∧
    heap st1 !! env_vars self = Some O ∧
    dict.wf O ∧
    ∀ k, dict.get O k
         = match dict.get kwargs k with
           | Some v => Some v
           | None => dict.get d k
           end.
Proof.
  intros Hm Hd Hkw.
  eexists _, _, (dict.update (dict.update [] d) kwargs).
  split; [by apply init_run|]. simpl. split_and!.
  - by apply lookup_insert_eq.
  - apply wf_update, wf_update, NoDup_nil_2.
  - intros k. rewrite !get_update by done. simpl.
    by destruct (dict.get kwargs k), (dict.get d k).
Qed.

Lemma init_merges_witness :
  ∃ self st1 O,
    __init__ 0%nat [("B", Some "k"); ("C", None)] sample_state = (Return self, st1) ∧
    heap st1 !! env_vars self = Some O ∧
    dict.wf O ∧
    ∀ k, dict.get O k
         = match dict.get [("B", Some "k"); ("C", None)] k with
           | Some v => Some v
           | None => dict.get [("A", Some "1"); ("B", @None string)] k
           end.
Proof.
  apply (init_merges sample_state 0%nat
           [("A", Some "1"); ("B", None)] [("B", Some "k"); ("C", None)]).
  - reflexivity.
  - exact sample_wf.
  - by apply (bool_decide_unpack _).
Defined.

(** X11: the examples of the docstring of [__init__], for any mapping and
    keyword arguments whose merged overrides [os.environ] accepts:
    constructing the instance and entering it, [os.getenv(name)] returns
    the value the merged overrides give [name] ([None] for an override to
    [None]), and after [__exit__] the environment is what it was. *)
Theorem getenv_in_scope_sees_override (st : state) (m : nat) (d kwargs : pydict)
    (name : string) (v : option string) :
  heap st !! m = Some d →
  dict.wf d →
  dict.wf kwargs →
  overrides_ok (dict.update (dict.update [] d) kwargs) →
  environ_ok (os_environ st) →
  match dict.get kwargs name with
  | Some x => Some x
  | None => dict.get d name
  end = Some v →
  ∃ self st1 self1 st2 st3,
    __init__ m kwargs st = (Return self, st1) ∧
    __enter__ self st1 = (Return self1, st2) ∧
    os_getenv name st2 = (Return v, st2) ∧
    __exit__ self1 st2 = (Return (), st3) ∧
    os_environ st3 = os_environ st.
Proof.
  intros Hm Hd Hkw Hok He Hv.
  set (O := dict.update (dict.update [] d) kwargs) in *.
  assert (dict.wf O) as HwfO by apply wf_update, wf_update, NoDup_nil_2.
  assert (dict.get O name = Some v) as HgetO.
  { unfold O. rewrite !get_update by done. simpl. rewrite <- Hv.
    by destruct (dict.get kwargs name), (dict.get d name). }
  eexists _, _, _, _, _.
  split; [by apply init_run|].
  split; [apply (enter_run _ O); [simpl; apply lookup_insert_eq|done]|].
  split.
  { unfold os_getenv, os_environ_get. simpl. do 2 f_equal.
    apply apply_items_in; [done|]. by apply get_Some. }
  split.
  { eapply exit_run; [reflexivity|simpl; apply lookup_insert_eq|].
    apply overrides_ok_saved_items; [done..|constructor]. }
  simpl. by apply restore_all.
Qed.

(** The third example of the docstring: a variable that is set, and
    [EnvVarContext(SHOULD_NOT_SET_THIS_VAR=None)] over the default mapping. *)
Lemma getenv_in_scope_sees_override_witness :
  ∃ self st1 self1 st2 st3,
    __init__ 0%nat [("SHOULD_NOT_SET_THIS_VAR", None)] docstring_state
    = (Return self, st1) ∧
    __enter__ self st1 = (Return self1, st2) ∧
    os_getenv "SHOULD_NOT_SET_THIS_VAR" st2 = (Return None, st2) ∧
    __exit__ self1 st2 = (Return (), st3) ∧
    os_environ st3 = os_environ docstring_state.
Proof.
  apply (getenv_in_scope_sees_override docstring_state 0%nat []
           [("SHOULD_NOT_SET_THIS_VAR", None)] "SHOULD_NOT_SET_THIS_VAR" None).
  - reflexivity.
  - apply NoDup_nil_2.
  - by apply (bool_decide_unpack _).
  - by apply (bool_decide_unpack _).
  - apply (bool_decide_unpack _). vm_compute. exact I.
  - reflexivity.
Defined.

(** * Using an instance again *)

(** X24: an instance can be used again after its [__exit__]: the second
    [__enter__] applies the same overrides, and the second [__exit__] gives
    the environment of the start back.  (Unique names; overrides and
    environment such as [os.environ] accepts.) *)
Theorem instance_reusable_in_sequence (st : state) (self : EnvVarContext.t)
    (O : pydict) :
  heap st !! env_vars self = Some O →
  dict.wf O →
  overrides_ok O →
  environ_ok (os_environ st) →
  ∃ self1 st1 st2 self3 st3 st4,
    __enter__ self st = (Return self1, st1) ∧
    __exit__ self1 st1 = (Return (), st2) ∧
    __enter__ self1 st2 = (Return self3, st3) ∧
    os_environ st3 = os_environ st1 ∧
    __exit__ self3 st3 = (Return (), st4) ∧
    os_environ st4 = os_environ st.
Proof.
  intros HO Hwf Hok He.
  assert (overrides_ok (saved_items O [] (os_environ st))) as Hsaved
    by (apply overrides_ok_saved_items; [done..|constructor]).
  eexists _, _, _, _, _, _.
  split; [by apply enter_run|].
  split; [eapply exit_run; [reflexivity|simpl; apply lookup_insert_eq|done]|].
  split.
  { apply (enter_run _ O); [|done]. simpl. rewrite lookup_insert_ne; [exact HO|].
    by eapply fresh_lookup_ne. }
  simpl. rewrite restore_all by done.
  split; [done|].
  split; [eapply exit_run; [reflexivity|simpl; apply lookup_insert_eq|done]|].
  simpl. by apply restore_all.
Qed.

Lemma instance_reusable_in_sequence_witness :
  ∃ self1 st1 st2 self3 st3 st4,
    __enter__ sample_ctx sample_state = (Return self1, st1) ∧
    __exit__ self1 st1 = (Return (), st2) ∧
    __enter__ self1 st2 = (Return self3, st3) ∧
    os_environ st3 = os_environ st1 ∧
    __exit__ self3 st3 = (Return (), st4) ∧
    os_environ st4 = os_environ sample_state.
Proof.
  apply (instance_reusable_in_sequence sample_state sample_ctx
           [("A", Some "1"); ("B", None)]).
  - reflexivity.
  - exact sample_wf.
  - exact sample_overrides_ok.
  - exact sample_environ_ok.
Defined.

(** * A refused assignment in [__enter__] *)




(** * Further properties of [write_env_vars] *)

(** X13: [write_env_vars] touches the file at [file_path] and nothing else:
    the environment, the dict objects and the other files are as before.
    When the file cannot be opened, [OSError] is raised and nothing has
    changed.  When it can, the file holds the script, or is empty when the
    script cannot be encoded (and [UnicodeEncodeError] is raised); what the
    file held before does not matter; and when no variable qualifies the
    script is empty, and the file is still written. *)
Theorem write_env_vars_rewrites_file (DEVTOOLSET_ENV_VARS : gset string)
    (can_open encodes : string → bool) (file_path : string) (st : state) :
  let script :=
    script_of (filter (λ kv, is_saved DEVTOOLSET_ENV_VARS kv.1)
                 (sorted (map_to_list (os_environ st)))) in
  ∃ r st',
    write_env_vars DEVTOOLSET_ENV_VARS can_open encodes file_path st = (r, st') ∧
    os_environ st' = os_environ st ∧
    heap st' = heap st ∧
    (∀ p, p ≠ file_path → files st' !! p = files st !! p) ∧
    (can_open file_path = false → r = Raise OSError ∧ st' = st) ∧
    (can_open file_path = true →
     r = (if encodes script then Return () else Raise UnicodeEncodeError) ∧
     files st' !! file_path = Some (if encodes script then script else "") ∧
     ∀ old, write_env_vars DEVTOOLSET_ENV_VARS can_open encodes file_path
              (set_files <[file_path := old]> st) = (r, st')) ∧
    ((∀ k, is_Some (os_environ st !! k) → ¬ is_saved DEVTOOLSET_ENV_VARS k) →
     script = "").
Proof.
  intros script.
  exists (written can_open encodes file_path script st).1,
         (written can_open encodes file_path script st).2.
  split; [rewrite write_env_vars_run; by destruct (written _ _ _ _ _)|].
  assert ((∀ k, is_Some (os_environ st !! k) → ¬ is_saved DEVTOOLSET_ENV_VARS k) →
          script = "") as Hempty.
  { intros Hnone. unfold script.
    destruct (filter _ (sorted (map_to_list (os_environ st))))
      as [|[k v] l] eqn:Hf; [done|].
    assert ((k, v) ∈ filter (λ kv, is_saved DEVTOOLSET_ENV_VARS kv.1)
              (sorted (map_to_list (os_environ st)))) as Hin
      by (rewrite Hf; by left).
    apply elem_of_exported in Hin as [Hk Hs].
    destruct (Hnone k); [by eexists|done]. }
  unfold written.
  destruct (can_open file_path) eqn:Hopen; [|by split_and!].
  assert (∀ old, write_env_vars DEVTOOLSET_ENV_VARS can_open encodes file_path
                   (set_files <[file_path := old]> st)
                 = written can_open encodes file_path script st) as Hold.
  { intros old. rewrite write_env_vars_run. cbn [set_files os_environ].
    fold script. unfold written. rewrite Hopen. unfold set_files.
    cbn [files heap os_environ]. by rewrite !insert_insert_eq. }
  unfold written in Hold. rewrite Hopen in Hold.
  destruct (encodes script) eqn:Henc; cbn [fst snd set_files files heap os_environ].
  - split_and!; [done|done| |done| |done].
    + intros p Hp. by rewrite lookup_insert_ne.
    + intros _. split_and!; [done|apply lookup_insert_eq|exact Hold].
  - split_and!; [done|done| |done| |done].
    + intros p Hp. by rewrite lookup_insert_ne.
    + intros _. split_and!; [done|apply lookup_insert_eq|exact Hold].
Qed.


(** * Directory lists: [get_dir_list_from_env_var] and [join_dir_list] *)

Lemma str_split_not_nil sep s : str_split sep s ≠ [].
Proof.
  destruct s as [|c s]; simpl; [done|].
  destruct (decide (c = sep)); [done|]. by destruct (str_split sep s).
Qed.

Lemma str_join_cons sep x y l :
  str_join sep (x :: y :: l) = x +:+ sep +:+ str_join sep (y :: l).
Proof. reflexivity. Qed.

Lemma str_join_cons_String sep c w ws :
  str_join sep (String c w :: ws) = String c (str_join sep (w :: ws)).
Proof. destruct ws; [done|]. by rewrite !str_join_cons. Qed.

Lemma str_join_split sep s : str_join (String sep "") (str_split sep s) = s.
Proof.
  induction s as [|c s IH]; simpl; [done|].
  pose proof (str_split_not_nil sep s) as Hne.
  destruct (str_split sep s) as [|w ws]; [done|].
  destruct (decide (c = sep)) as [->|].
  - rewrite str_join_cons, IH. reflexivity.
  - by rewrite str_join_cons_String, IH.
Qed.

Lemma colon_free_split s : Forall (λ w, colon_free w) (str_split ":" s).
Proof.
  induction s as [|c s IH]; simpl; [by repeat constructor|].
  destruct (decide (c = ":"%char)) as [->|Hne]; [by constructor|].
  destruct (str_split ":" s) as [|w ws]; simpl.
  - repeat constructor. simpl. by rewrite bool_decide_false.
  - apply Forall_cons in IH as [Hw Hws]. constructor; [|done].
    simpl. by rewrite bool_decide_false.
Qed.

Lemma str_split_colon_free w :
  colon_free w → str_split ":" w = [w].
Proof.
  induction w as [|c w IH]; simpl; [done|].
  intros [Hc Hw]%andb_True. apply negb_True in Hc.
  rewrite bool_decide_spec in Hc. rewrite decide_False by done.
  by rewrite IH.
Qed.

Lemma str_split_app_colon w rest :
  colon_free w → str_split ":" (w +:+ ":" +:+ rest) = w :: str_split ":" rest.
Proof.
  induction w as [|c w IH]; intros Hw.
  - reflexivity.
  - simpl in Hw. apply andb_True in Hw as [Hc Hw]. apply negb_True in Hc.
    rewrite bool_decide_spec in Hc.
    rewrite app_cons. simpl. rewrite decide_False by done.
    by rewrite IH.
Qed.

Lemma str_split_join l :
  Forall (λ w, colon_free w) l → l ≠ [] → str_split ":" (str_join ":" l) = l.
Proof.
  induction l as [|x [|y l] IH]; intros Hl Hne; [done| |].
  - apply Forall_cons in Hl as [Hx _]. by apply str_split_colon_free.
  - apply Forall_cons in Hl as [Hx Hl].
    rewrite str_join_cons, str_split_app_colon by done.
    by rewrite IH.
Qed.

(** X15: [get_dir_list_from_env_var] changes nothing; for a variable that
    is not set it returns the empty list, and for one that is set a list
    that is not empty (one empty name for the empty value), whose names
    have no colon and whose colon-join is the value. *)
Theorem get_dir_list_from_env_var_spec (env_var_name : string) (st : state) :
  ∃ dirs,
    get_dir_list_from_env_var env_var_name st = (Return dirs, st) ∧
    (os_environ st !! env_var_name = None → dirs = []) ∧
    (∀ v, os_environ st !! env_var_name = Some v →
       dirs ≠ [] ∧ Forall (λ w, colon_free w) dirs ∧ str_join ":" dirs = v).
Proof.
  unfold get_dir_list_from_env_var, os_getenv, os_environ_get.
  rewrite bind_run.
  destruct (os_environ st !! env_var_name) as [v|] eqn:Hv.
  - eexists. split; [reflexivity|]. split; [done|].
    intros v' [= <-]. split_and!.
    + apply str_split_not_nil.
    + apply colon_free_split.
    + apply (str_join_split ":"%char).
  - eexists. split; [reflexivity|]. split; [done|]. by intros v' ?.
Qed.

(** X16: a list of names without colons, not empty, that was stored as its
    colon-join is read back as it was. *)
Theorem get_dir_list_of_joined (env_var_name : string) (st : state)
    (dirs : list string) :
  dirs ≠ [] →
  Forall (λ w, colon_free w) dirs →
  os_environ st !! env_var_name = Some (str_join ":" dirs) →
  get_dir_list_from_env_var env_var_name st = (Return dirs, st).
Proof.
  intros Hne Hdirs Hv.
  unfold get_dir_list_from_env_var, os_getenv, os_environ_get.
  rewrite bind_run, Hv. unfold mret, M_ret. by rewrite str_split_join.
Qed.

Lemma get_dir_list_of_joined_witness :
  get_dir_list_from_env_var "PATH"
    {| heap := ∅; os_environ := {[ "PATH" := "/usr/bin::/bin" ]}; files := ∅ |}
  = (Return ["/usr/bin"; ""; "/bin"],
     {| heap := ∅; os_environ := {[ "PATH" := "/usr/bin::/bin" ]}; files := ∅ |}).
Proof.
  apply (get_dir_list_of_joined "PATH" _ ["/usr/bin"; ""; "/bin"]).
  - discriminate.
  - by apply (bool_decide_unpack _).
  - reflexivity.
Defined.

Lemma join_dir_list_split (dirs : list string) :
  Forall (λ w, colon_free w) dirs →
  (filter (λ d, d ≠ "") dirs ≠ [] →
   str_split ":" (join_dir_list dirs) = filter (λ d, d ≠ "") dirs) ∧
  (filter (λ d, d ≠ "") dirs = [] → join_dir_list dirs = "").
Proof.
  intros Hdirs. unfold join_dir_list. split.
  - intros Hne. apply str_split_join; [|done].
    apply Forall_forall. intros w [_ Hw]%list_elem_of_filter.
    by eapply Forall_forall in Hdirs.
  - by intros ->.
Qed.

(** X17: [join_dir_list] of names without colons gives a value whose
    entries are exactly the non-empty names, in order: no leading, trailing
    or doubled colon.  When every name is empty the value is empty. *)
Theorem join_dir_list_entries (dirs : list string) :
  Forall (λ w, colon_free w) dirs →
  (filter (λ d, d ≠ "") dirs ≠ [] →
   str_split ":" (join_dir_list dirs) = filter (λ d, d ≠ "") dirs) ∧
  (filter (λ d, d ≠ "") dirs = [] → join_dir_list dirs = "").
Proof.
  intros Hdirs. unfold join_dir_list. split.
  - intros Hne. apply str_split_join; [|done].
    rewrite Forall_forall in Hdirs. apply Forall_forall.
    intros w Hw. apply list_elem_of_filter in Hw as [_ Hw]. auto.
  - intros Hnone. by rewrite Hnone.
Qed.

Lemma join_dir_list_entries_witness :
  (filter (λ d, d ≠ "") ["/a"; ""; "/b"; ""] ≠ [] →
   str_split ":" (join_dir_list ["/a"; ""; "/b"; ""])
   = filter (λ d, d ≠ "") ["/a"; ""; "/b"; ""]) ∧
  (filter (λ d, d ≠ "") ["/a"; ""; "/b"; ""] = [] →
   join_dir_list ["/a"; ""; "/b"; ""] = "").
Proof.
  apply (join_dir_list_entries ["/a"; ""; "/b"; ""]).
  by apply (bool_decide_unpack _).
Defined.

(** X18: reading a colon-separated value and joining it again removes its
    empty entries and nothing else; doing so a second time changes
    nothing. *)
Theorem join_dir_list_normalises (v : string) :
  let once := join_dir_list (str_split ":" v) in
  filter (λ d, d ≠ "") (str_split ":" once)
  = filter (λ d, d ≠ "") (str_split ":" v) ∧
  join_dir_list (str_split ":" once) = once.
Proof.
  intros once.
  assert (filter (λ d, d ≠ "") (str_split ":" once)
          = filter (λ d, d ≠ "") (str_split ":" v)) as Hfilter.
  { destruct (join_dir_list_split (str_split ":" v) (colon_free_split v))
      as [Hsome Hnone].
    destruct (filter (λ d, d ≠ "") (str_split ":" v)) as [|x l] eqn:Hf.
    - unfold once. by rewrite (Hnone eq_refl).
    - unfold once. rewrite Hsome by done.
      rewrite <- Hf. apply list_filter_filter_l. done. }
  split; [done|].
  unfold join_dir_list at 1. rewrite Hfilter. reflexivity.
Qed.

(** * Flag lists: [get_flag_list_from_env_var] *)

(** ** Whitespace characters and the bytes around them *)

Lemma space2_continuation a b : space2 a b = true → continuation b = true.
Proof.
  unfold space2, continuation. cbv zeta.
  intros H%bool_decide_eq_true. apply bool_decide_eq_true. lia.
Qed.

Lemma space3_continuation a b c :
  space3 a b c = true → continuation b = true ∧ continuation c = true.
Proof.
  unfold space3, continuation. cbv zeta.
  intros H%bool_decide_eq_true. split; apply bool_decide_eq_true; lia.
Qed.

Lemma space2_clean a b : continuation b = false → space2 a b = false.
Proof.
  intros Hb. destruct (space2 a b) eqn:E; [|done].
  apply space2_continuation in E. congruence.
Qed.

Lemma space3_clean_2 a b c : continuation b = false → space3 a b c = false.
Proof.
  intros Hb. destruct (space3 a b c) eqn:E; [|done].
  apply space3_continuation in E as [E _]. congruence.
Qed.

Lemma space3_clean_3 a b c : continuation c = false → space3 a b c = false.
Proof.
  intros Hb. destruct (space3 a b c) eqn:E; [|done].
  apply space3_continuation in E as [_ E]. congruence.
Qed.

Lemma space_here_continuation a r :
  continuation a = true → space_here (String a r) = false.
Proof.
  unfold continuation. intros H%bool_decide_eq_true.
  assert (space1 a = false) as H1.
  { unfold space1. cbv zeta. apply bool_decide_eq_false. lia. }
  assert (∀ b, space2 a b = false) as H2.
  { intros b. unfold space2. cbv zeta. apply bool_decide_eq_false. lia. }
  assert (∀ b c, space3 a b c = false) as H3.
  { intros b c. unfold space3. cbv zeta. apply bool_decide_eq_false. lia. }
  destruct r as [|b [|c r]]; cbn [space_here]; by rewrite ?H1, ?H2, ?H3.
Qed.

Lemma after_space_length a s1 :
  (String.length (after_space (String a s1)) ≤ String.length s1)%nat.
Proof.
  cbn [after_space]. destruct (space1 a); [done|].
  destruct s1 as [|b s2]; [done|]. destruct (space2 a b); [cbn; lia|].
  destruct s2; cbn; lia.
Qed.

(** Induction on a string that is read a whitespace character at a time. *)
Lemma space_ind (P : string → Prop) :
  P "" →
  (∀ a s1, P s1 → P (after_space (String a s1)) → P (String a s1)) →
  ∀ s, P s.
Proof.
  intros H0 Hs s.
  assert (∀ n s, (String.length s ≤ n)%nat → P s) as H.
  { induction n as [|n IH]; intros [|a s1] Hlen; [done| |done|].
    - cbn in Hlen. lia.
    - pose proof (after_space_length a s1). cbn in Hlen.
      apply Hs; apply IH; lia. }
  by apply (H (String.length s)).
Qed.

Lemma all_space_unfold a s1 :
  all_space (String a s1)
  = space_here (String a s1) && all_space (after_space (String a s1)).
Proof.
  destruct s1 as [|b [|c s3]]; cbn [all_space space_here after_space].
  - by destruct (space1 a).
  - by destruct (space1 a), (space2 a b).
  - by destruct (space1 a), (space2 a b), (space3 a b c).
Qed.

Lemma lstrip_unfold a s1 :
  lstrip (String a s1)
  = if space_here (String a s1) then lstrip (after_space (String a s1))
    else String a s1.
Proof.
  destruct s1 as [|b [|c s3]]; cbn [lstrip space_here after_space].
  - by destruct (space1 a).
  - by destruct (space1 a), (space2 a b).
  - by destruct (space1 a), (space2 a b), (space3 a b c).
Qed.

Lemma split_aux_unfold a s1 :
  split_aux (String a s1)
  = if space_here (String a s1)
    then ("", add_word (split_aux (after_space (String a s1))))
    else push_char a (split_aux s1).
Proof.
  destruct s1 as [|b [|c s3]]; cbn [split_aux space_here after_space].
  - by destruct (space1 a).
  - by destruct (space1 a), (space2 a b).
  - by destruct (space1 a), (space2 a b), (space3 a b c).
Qed.

Lemma space_here_mono t r :
  space_here t = true → space_here (t +:+ r) = true.
Proof.
  destruct t as [|a [|b [|c t]]]; rewrite ?app_cons;
    change ("" +:+ ?x) with x; cbn [space_here]; [done| | |done].
  - rewrite orb_false_r. by intros ->.
  - rewrite orb_false_r. by destruct (space1 a), (space2 a b).
Qed.

Lemma after_space_app t r :
  space_here t = true → after_space (t +:+ r) = after_space t +:+ r.
Proof.
  destruct t as [|a [|b [|c t]]]; rewrite ?app_cons;
    change ("" +:+ ?x) with x; cbn [space_here after_space]; [done| | |].
  - rewrite orb_false_r. by intros ->.
  - rewrite orb_false_r. by destruct (space1 a), (space2 a b).
  - intros _. by destruct (space1 a), (space2 a b).
Qed.

Lemma space_here_app t r :
  t ≠ "" → starts_clean r = true → space_here (t +:+ r) = space_here t.
Proof.
  intros Ht Hr. destruct t as [|a [|b [|c t]]]; [done| | |done].
  - destruct r as [|b [|c r]]; [done| |];
      cbn [starts_clean] in Hr; apply negb_true_iff in Hr;
      rewrite ?app_cons; change ("" +:+ ?x) with x; cbn [space_here].
    + by rewrite (space2_clean a b Hr).
    + by rewrite (space2_clean a b Hr), (space3_clean_2 a b c Hr).
  - destruct r as [|c r]; [done|].
    cbn [starts_clean] in Hr. apply negb_true_iff in Hr.
    rewrite ?app_cons; change ("" +:+ ?x) with x. cbn [space_here].
    by rewrite (space3_clean_3 a b c Hr).
Qed.

Lemma all_space_clean r : all_space r = true → starts_clean r = true.
Proof.
  destruct r as [|a r]; [done|]. rewrite all_space_unfold.
  intros [Hh _]%andb_true_iff. cbn [starts_clean].
  destruct (continuation a) eqn:Hc; [|done].
  by rewrite space_here_continuation in Hh.
Qed.

(** ** [split] and [strip] *)

Lemma add_word_nil l : add_word ("", l) = l.
Proof. unfold add_word. cbn [fst snd]. by rewrite decide_True. Qed.

Lemma add_word_cons w l : w ≠ "" → add_word (w, l) = w :: l.
Proof. intros Hw. unfold add_word. cbn [fst snd]. by rewrite decide_False. Qed.

Lemma split_aux_all_space s : all_space s = true → split_aux s = ("", []).
Proof.
  induction s as [|a s1 _ IH] using space_ind; [done|].
  rewrite all_space_unfold. intros [Hh Hs]%andb_true_iff.
  by rewrite split_aux_unfold, Hh, IH, add_word_nil.
Qed.

Lemma split_lstrip s : split (lstrip s) = split s.
Proof.
  induction s as [|a s1 _ IH] using space_ind; [done|].
  rewrite lstrip_unfold. destruct (space_here (String a s1)) eqn:Hh; [|done].
  rewrite IH. unfold split at 2. by rewrite split_aux_unfold, Hh, add_word_nil.
Qed.

Lemma split_aux_app_space t ws :
  all_space ws = true → split_aux (t +:+ ws) = split_aux t.
Proof.
  intros Hws. induction t as [|a t1 IH1 IH2] using space_ind.
  - by apply split_aux_all_space.
  - pose proof (space_here_app (String a t1) ws) as E1.
    pose proof (after_space_app (String a t1) ws) as E2.
    rewrite app_cons in E1, E2. rewrite app_cons, !split_aux_unfold.
    rewrite E1 by (done || by apply all_space_clean).
    destruct (space_here (String a t1)); [|by rewrite IH1].
    by rewrite E2, IH2.
Qed.

Lemma rstrip_decompose s : ∃ ws, all_space ws = true ∧ s = rstrip s +:+ ws.
Proof.
  induction s as [|a s1 (ws & Hws & Hs)]; [by exists ""|].
  change (rstrip (String a s1))
    with (if all_space (String a s1) then "" else String a (rstrip s1)).
  destruct (all_space (String a s1)) eqn:E.
  - by exists (String a s1).
  - exists ws. split; [done|]. rewrite app_cons. by f_equal.
Qed.

Lemma split_strip v : split (strip v) = split v.
Proof.
  unfold strip.
  destruct (rstrip_decompose (lstrip v)) as (ws & Hws & Hv).
  rewrite <- (split_lstrip v). unfold split. rewrite Hv at 2.
  by rewrite split_aux_app_space.
Qed.

Lemma split_aux_prefix s : ∃ rest, s = (split_aux s).1 +:+ rest.
Proof.
  induction s as [|a s1 (rest & Hrest)]; [by exists ""|].
  rewrite split_aux_unfold. destruct (space_here (String a s1)).
  - by exists (String a s1).
  - exists rest. cbn [push_char fst]. rewrite app_cons. by f_equal.
Qed.

Lemma add_word_words p :
  space_free p.1 → Forall is_word p.2 → Forall is_word (add_word p).
Proof.
  intros H1 H2. unfold add_word. destruct (decide (p.1 = "")); [done|].
  by constructor.
Qed.

Lemma split_aux_words s :
  space_free (split_aux s).1 ∧ Forall is_word (split_aux s).2.
Proof.
  induction s as [|a s1 IH1 IH2] using space_ind; [by split|].
  rewrite split_aux_unfold. destruct (space_here (String a s1)) eqn:Hh.
  - split; [exact I|]. cbn [snd]. apply add_word_words; apply IH2.
  - destruct IH1 as [Hw Hws]. split; [|done]. cbn [push_char fst].
    change (space_free (String a (split_aux s1).1))
      with (negb (space_here (String a (split_aux s1).1))
            && space_free (split_aux s1).1).
    apply andb_True. split; [|done].
    destruct (space_here (String a (split_aux s1).1)) eqn:Hp; [|done].
    destruct (split_aux_prefix s1) as (rest & Hrest).
    apply (space_here_mono _ rest) in Hp. rewrite app_cons, <- Hrest in Hp.
    congruence.
Qed.

Lemma split_words s : Forall is_word (split s).
Proof. unfold split. apply add_word_words; apply split_aux_words. Qed.

Lemma split_aux_word w r :
  space_free w → starts_clean r = true →
  split_aux (w +:+ r) = (w +:+ (split_aux r).1, (split_aux r).2).
Proof.
  intros Hw Hr. induction w as [|a w1 IH].
  { change ("" +:+ ?x) with x. by destruct (split_aux r). }
  change (space_free (String a w1))
    with (negb (space_here (String a w1)) && space_free w1) in Hw.
  apply andb_True in Hw as [Hh Hw]. apply negb_True, Is_true_false in Hh.
  pose proof (space_here_app (String a w1) r) as E1.
  rewrite app_cons in E1. rewrite app_cons, split_aux_unfold.
  rewrite E1, Hh by done. by rewrite IH.
Qed.

Lemma split_aux_space rest : split_aux (String " " rest) = ("", split rest).
Proof. by rewrite split_aux_unfold. Qed.

Lemma split_join_words ws :
  Forall is_word ws → split (str_join " " ws) = ws.
Proof.
  induction ws as [|w [|w' ws] IH]; intros Hws; [done| |].
  - apply Forall_cons in Hws as [[Hne Hsf] _].
    cbn [str_join]. unfold split.
    rewrite <- (app_nil_r w) at 1. rewrite split_aux_word by done.
    cbn [split_aux fst snd]. by rewrite app_nil_r, add_word_cons.
  - apply Forall_cons in Hws as [[Hne Hsf] Hws].
    rewrite str_join_cons. unfold split at 1.
    change (" " +:+ ?s) with (String " " s).
    rewrite split_aux_word by done. rewrite split_aux_space. cbn [fst snd].
    rewrite app_nil_r, add_word_cons by done. f_equal. by apply IH.
Qed.

(** X19: [get_flag_list_from_env_var] changes nothing; for a variable that
    is not set, or whose value is whitespace only, it returns the empty
    list; every flag it returns is a word, not empty and without
    whitespace; and the [strip()] before [split()] makes no difference.
    Whitespace is what [str.split] takes for it, the no-break space and
    the other space characters outside ASCII among it. *)
Theorem get_flag_list_from_env_var_spec (env_var_name : string) (st : state) :
  ∃ flags,
    get_flag_list_from_env_var env_var_name st = (Return flags, st) ∧
    Forall is_word flags ∧
    (os_environ st !! env_var_name = None → flags = []) ∧
    (∀ v, os_environ st !! env_var_name = Some v →
       flags = split v ∧ (all_space v → flags = [])).
Proof.
  unfold get_flag_list_from_env_var, os_getenv, os_environ_get.
  rewrite bind_run.
  destruct (os_environ st !! env_var_name) as [v|] eqn:Hv.
  - exists (split (strip v)). split; [reflexivity|]. split_and!.
    + apply split_words.
    + done.
    + intros v' [= <-]. split; [apply split_strip|].
      intros Hsp%Is_true_true. rewrite split_strip. unfold split.
      by rewrite split_aux_all_space.
  - exists []. split; [reflexivity|]. split_and!; [constructor|done|done].
Qed.

(** A no-break space between two flags separates them as a space does. *)
Example get_flag_list_no_break_space :
  get_flag_list_from_env_var "CFLAGS"
    (set_environ
       <["CFLAGS" := "-DX=a" +:+ String "194" (String "160" "b") +:+ " -g"]>
       sample_state)
  = (Return ["-DX=a"; "b"; "-g"],
     set_environ
       <["CFLAGS" := "-DX=a" +:+ String "194" (String "160" "b") +:+ " -g"]>
       sample_state).
Proof. reflexivity. Qed.

(** X20: whitespace around the value does not matter: the flags of a
    value and of the value with whitespace characters before and after
    are the same. *)
Theorem get_flag_list_ignores_padding (env_var_name : string) (st st' : state)
    (v before after : string) :
  all_space before →
  all_space after →
  os_environ st !! env_var_name = Some v →
  os_environ st' !! env_var_name = Some (before +:+ v +:+ after) →
  (get_flag_list_from_env_var env_var_name st').1
  = (get_flag_list_from_env_var env_var_name st).1.
Proof.
  intros Hb%Is_true_true Ha%Is_true_true Hv Hv'.
  unfold get_flag_list_from_env_var, os_getenv, os_environ_get.
  rewrite !bind_run, Hv, Hv'. unfold mret, M_ret. cbn [fst]. f_equal.
  rewrite !split_strip. unfold split.
  rewrite <- app_assoc, split_aux_app_space by done.
  fold (split (before +:+ v)). fold (split v).
  clear Hv Hv' Ha. induction before as [|a b1 _ IH] using space_ind; [done|].
  rewrite all_space_unfold in Hb. apply andb_true_iff in Hb as [Hh Hb].
  pose proof (after_space_app (String a b1) v Hh) as E2.
  pose proof (space_here_mono (String a b1) v Hh) as E1.
  rewrite app_cons in E1, E2.
  unfold split at 1. rewrite app_cons, split_aux_unfold, E1, E2, add_word_nil.
  by apply IH.
Qed.

Lemma get_flag_list_ignores_padding_witness :
  (get_flag_list_from_env_var "CFLAGS"
     (set_environ
        <["CFLAGS" := String "194" (String "160" " ") +:+ "-O2 -g" +:+ " "]>
        sample_state)).1
  = (get_flag_list_from_env_var "CFLAGS"
       (set_environ <["CFLAGS" := "-O2 -g" ]> sample_state)).1.
Proof.
  apply (get_flag_list_ignores_padding "CFLAGS" _ _ "-O2 -g"
           (String "194" (String "160" " ")) " ").
  - reflexivity.
  - reflexivity.
  - reflexivity.
  - reflexivity.
Defined.

(** X21: a list of words stored as its join with single spaces is read
    back as it was.  (A word has no whitespace character in it, the
    no-break space and the other space characters outside ASCII
    included.) *)
Theorem get_flag_list_of_joined (env_var_name : string) (st : state)
    (flags : list string) :
  Forall is_word flags →
  os_environ st !! env_var_name = Some (str_join " " flags) →
  get_flag_list_from_env_var env_var_name st = (Return flags, st).
Proof.
  intros Hflags Hv.
  unfold get_flag_list_from_env_var, os_getenv, os_environ_get.
  rewrite bind_run, Hv. unfold mret, M_ret.
  by rewrite split_strip, split_join_words.
Qed.

Lemma get_flag_list_of_joined_witness :
  get_flag_list_from_env_var "CFLAGS"
    (set_environ <["CFLAGS" := "-O2 -g" ]> sample_state)
  = (Return ["-O2"; "-g"], set_environ <["CFLAGS" := "-O2 -g" ]> sample_state).
Proof.
  apply (get_flag_list_of_joined "CFLAGS" _ ["-O2"; "-g"]).
  - repeat constructor; done.
  - reflexivity.
Defined.

(** * [unset_env_var_if_set_and_log] and [get_env_var_name_and_value_str] *)



(** X23: [get_env_var_name_and_value_str] writes a variable that is not
    set as [NAME=None], which is also what it writes for a variable set to
    the string [None]: the two cannot be told apart in its result. *)
Theorem get_env_var_name_and_value_str_unset (env_var_name : string)
    (st st' : state) :
  os_environ st !! env_var_name = None →
  os_environ st' !! env_var_name = Some "None" →
  get_env_var_name_and_value_str env_var_name st
  = (Return (env_var_name +:+ "=None"), st) ∧
  (get_env_var_name_and_value_str env_var_name st').1
  = (get_env_var_name_and_value_str env_var_name st).1.
Proof.
  intros Hv Hv'. unfold get_env_var_name_and_value_str, os_getenv, os_environ_get.
  rewrite !bind_run, Hv, Hv'. split; reflexivity.
Qed.

Lemma get_env_var_name_and_value_str_unset_witness :
  get_env_var_name_and_value_str "A" sample_state
  = (Return ("A" +:+ "=None"), sample_state) ∧
  (get_env_var_name_and_value_str "A"
     (set_environ <["A" := "None"]> sample_state)).1
  = (get_env_var_name_and_value_str "A" sample_state).1.
Proof.
  apply (get_env_var_name_and_value_str_unset "A" sample_state
           (set_environ <["A" := "None"]> sample_state)).
  - reflexivity.
  - reflexivity.
Defined.

